(** * recoil-controller: the control loops of [core/engine.py], the WinAPI
    backend of [core/input_backend.py], and the state, hotkeys and
    settings of [app.py]

    Conventions of the embedding.
    - Python [int] is [Z].
    - Python [float] values (pull, durations, clock readings in seconds) are
      exact rationals [Q]; [Binary64] repeats the built-in pull curve over
      IEEE doubles, to check concrete values against.  [int(x)] on a float
      truncates toward zero.
    - [time.sleep] only lets time pass and [threading] is an interleaving
      of atomic steps; the one-second timeout of [join] is left out.
    - Python [str] is [string]; a character is a code point below 256.
    - A [try/except] is an explicit case on whether the guarded call raised.
    - Calls to the input backend are recorded, in order, in a trace; so
      are the events the click thread sends, and what the application does
      to its panel, its tones and its settings file.
    - A Python [dict] is an association list in insertion order;
      [json.loads] is taken to give back what [json.dumps] wrote. *)

From Stdlib Require Import ZArith QArith Qround List String Ascii Bool Lia.
From Stdlib Require SpecFloat.
Import ListNotations.
Local Open Scope Z_scope.

(** ** [app.py]: the synth-guard counter of [State] *)

Module SynthGuard.

(** [State._synth_guard], an [int] that [State.__init__] sets to 0. *)
Definition init : Z := 0.

(** [State.begin_synth]: [self._synth_guard += 1]. *)
Definition begin_synth (g : Z) : Z := g + 1.

(** [State.end_synth]: decrement guarded by [self._synth_guard > 0]. *)
Definition end_synth (g : Z) : Z := if g >? 0 then g - 1 else g.

(** [State.is_synth]: [self._synth_guard > 0]. *)
Definition is_synth (g : Z) : bool := g >? 0.

Inductive call := Begin | End.

Definition step (g : Z) (c : call) : Z :=
  match c with
  | Begin => begin_synth g
  | End => end_synth g
  end.

(** The guard after a sequence of calls, oldest first. *)
Definition run (g : Z) (cs : list call) : Z := fold_left step cs g.

(** Every depth the guard goes through, the starting one included. *)
Fixpoint depths (g : Z) (cs : list call) : list Z :=
  match cs with
  | [] => [g]
  | c :: cs' => g :: depths (step g c) cs'
  end.

Definition is_begin (c : call) : bool :=
  match c with Begin => true | End => false end.

Definition is_end (c : call) : bool := negb (is_begin c).

Definition begins (cs : list call) : Z := Z.of_nat (List.length (filter is_begin cs)).
Definition ends (cs : list call) : Z := Z.of_nat (List.length (filter is_end cs)).

(** Every [Begin] can be given an [End] of its own that comes later: from
    any point on, the calls still to come hold at least as many [End]s as
    [Begin]s (the marriage condition for matching each [Begin] to a later
    [End]).  Surplus [End]s are allowed anywhere. *)
Definition all_begins_matched (cs : list call) : Prop :=
  forall k : nat, begins (skipn k cs) <= ends (skipn k cs).

(** Strictly nested acquisition, as [try: begin ... finally: end] gives. *)
Inductive scoped : list call -> Prop :=
| scoped_nil : scoped []
| scoped_wrap cs : scoped cs -> scoped (Begin :: cs ++ [End])
| scoped_seq cs1 cs2 : scoped cs1 -> scoped cs2 -> scoped (cs1 ++ cs2).

End SynthGuard.

(** ** [core/plugin_api.py]: [WeaponConfig] *)

Record WeaponConfig := mkWeaponConfig {
  name : string;
  defaultPull : Q;
  initialDuration : Q;
  steadyPull : Q;
  sleepTime : Z;
  acceleration : Q
}.

(** The dataclass defaults: [WeaponConfig(name=n)]. *)
Definition WeaponConfig_named (n : string) : WeaponConfig :=
  mkWeaponConfig n (2 # 1) (1 # 2) (16 # 10) 8 (200 # 1).

(** ** Numeric conversions of Python *)

(** [int(x)] for a float [x]: the integer part, rounding toward zero. *)
Definition py_int (x : Q) : Z := Z.quot (Qnum x) (Zpos (Qden x)).


(** [float(n)] for an int [n]. *)
Definition py_float (n : Z) : Q := inject_Z n.

(** [x < y] on floats, as a boolean. *)
Definition Qltb (x y : Q) : bool := negb (Qle_bool y x).

(** [d.get(key, default)] followed by [bool(...)], for a key holding a bool. *)
Definition get_bool (v : option bool) (default : bool) : bool :=
  match v with Some x => x | None => default end.

(** ** The built-in curve in IEEE 754 double precision

    The same curve over the doubles that CPython computes with, to check
    the rational model against on concrete profiles. *)

Module Binary64.

Definition float := SpecFloat.spec_float.

(** The double [m * 2^e]. *)
Definition dbl (m : positive) (e : Z) : float := SpecFloat.S754_finite false m e.

Definition add : float -> float -> float := SpecFloat.SFadd 53 1024.
Definition div : float -> float -> float := SpecFloat.SFdiv 53 1024.
Definition ltb : float -> float -> bool := SpecFloat.SFltb.

(** [float(n)] for an int [n]. *)
Definition of_int (n : Z) : float := SpecFloat.binary_normalize 53 1024 n 0 false.

(** Lines 247-250 for a non-zero [acceleration]. *)
Definition builtin_pull (defaultPull initialDuration steadyPull acceleration : float)
           (elapsed : float) (count : Z) : float :=
  if ltb elapsed initialDuration
  then add defaultPull (div (of_int count) acceleration)
  else steadyPull.

(** The doubles that the literals 0.1, 0.5, 0.6, 1.6 and 2.1 denote. *)
Definition d0_1 : float := dbl 7205759403792794 (-56).
Definition d0_5 : float := dbl 4503599627370496 (-53).
Definition d0_6 : float := dbl 5404319552844595 (-53).
Definition d1_6 : float := dbl 7205759403792794 (-52).
Definition d2_1 : float := dbl 4728779608739021 (-51).

End Binary64.

(** ** Python [str] operations used on the trigger key *)

(** [c.isspace()] for a code point below 256: TAB..CR, FS..US, SPACE, NEL,
    NBSP. *)
Definition py_isspace (c : ascii) : bool :=
  let n := nat_of_ascii c in
  (((9 <=? n) && (n <=? 13)) || ((28 <=? n) && (n <=? 32))
   || (n =? 133) || (n =? 160))%nat.

(** [c.lower()] for a code point below 256: A..Z and the Latin-1 capitals
    (all of U+00C0..U+00DE but the multiplication sign) move up by 32. *)
Definition py_lower_char (c : ascii) : ascii :=
  let n := nat_of_ascii c in
  if (((65 <=? n) && (n <=? 90))
      || ((192 <=? n) && (n <=? 222) && negb (n =? 215)))%nat
  then ascii_of_nat (n + 32) else c.

Fixpoint py_lower (s : string) : string :=
  match s with
  | EmptyString => EmptyString
  | String c s' => String (py_lower_char c) (py_lower s')
  end.

Fixpoint py_lstrip (s : string) : string :=
  match s with
  | EmptyString => EmptyString
  | String c s' => if py_isspace c then py_lstrip s' else s
  end.

Fixpoint py_rstrip (s : string) : string :=
  match s with
  | EmptyString => EmptyString
  | String c s' =>
      match py_rstrip s' with
      | EmptyString => if py_isspace c then EmptyString else String c EmptyString
      | r => String c r
      end
  end.

(** [s.strip()]. *)
Definition py_strip (s : string) : string := py_rstrip (py_lstrip s).

(** [s[0]] of a non-empty string; on the empty string Python raises, which
    the callers below rule out before indexing. *)
Definition py_first (s : string) : string :=
  match s with
  | EmptyString => EmptyString
  | String c _ => String c EmptyString
  end.

(** [not s] for a string. *)
Definition str_falsy (s : string) : bool :=
  match s with EmptyString => true | _ => false end.

(** ** [core/input_backend.py] as the engine uses it *)

Inductive BackendCall :=
| MoveMouse (dx dy : Z)
| KeyDown (ch : string)
| KeyUp (ch : string).

(** A backend says, for each call, whether it raises.  The engine wraps
    every backend call in [try/except]. *)
Record Backend := mkBackend { raises : BackendCall -> bool }.

(** A backend whose methods return normally: [_DummyBackend] and
    [_SimplePynputBackend] by construction, [WinAPIBackend] as long as
    [SendInput] returns. *)
Definition quiet_backend : Backend := mkBackend (fun _ => false).

(** Whether key [k] is down after the calls [cs] (oldest first), when it was
    [d] before them. *)
Fixpoint key_down_after (k : string) (d : bool) (cs : list BackendCall) : bool :=
  match cs with
  | [] => d
  | KeyDown ch :: cs' => key_down_after k (if String.eqb ch k then true else d) cs'
  | KeyUp ch :: cs' => key_down_after k (if String.eqb ch k then false else d) cs'
  | MoveMouse _ _ :: cs' => key_down_after k d cs'
  end.

Definition key_is_down (k : string) (cs : list BackendCall) : bool :=
  key_down_after k false cs.

Definition is_key_down_call (c : BackendCall) : bool :=
  match c with KeyDown _ => true | _ => false end.



(** ** [core/engine.py]: [RecoilEngine] *)

Module RecoilEngine.

(** What the engine hands to its [log] callback. *)
Inductive LogMsg :=
| LogStarted
| LogStopped
| LogTriggerKey (k : string)
| LogKeyDownFailed (k : string)
| LogKeyUpFailed (k : string)
| LogPollError
| LogShootingStart
| LogShootingEnd
| LogPullError
| LogMoveError
| LogTick (elapsed : Q) (count : Z) (pull : Z).

(** The instance attributes that change after [__init__], with the trace
    of backend calls and of log lines (oldest first). *)
Record Engine := mkEngine {
  _running : bool;
  _trigger_key : string;
  _trigger_held : bool;
  calls : list BackendCall;
  logged : list LogMsg
}.

(** [RecoilEngine.__init__]. *)
Definition init : Engine := mkEngine false "p" false [] [].

Definition set_running (v : bool) (e : Engine) : Engine :=
  mkEngine v (_trigger_key e) (_trigger_held e) (calls e) (logged e).

Definition set_key (k : string) (e : Engine) : Engine :=
  mkEngine (_running e) k (_trigger_held e) (calls e) (logged e).

Definition set_held (v : bool) (e : Engine) : Engine :=
  mkEngine (_running e) (_trigger_key e) v (calls e) (logged e).

(** A call reaches the backend. *)
Definition issue (c : BackendCall) (e : Engine) : Engine :=
  mkEngine (_running e) (_trigger_key e) (_trigger_held e) (calls e ++ [c]) (logged e).

Definition log (m : LogMsg) (e : Engine) : Engine :=
  mkEngine (_running e) (_trigger_key e) (_trigger_held e) (calls e) (logged e ++ [m]).

(** [_ensure_trigger_down]: nothing when already held; else [key_down],
    and the flag is set only when that call returned. *)
Definition _ensure_trigger_down (b : Backend) (e : Engine) : Engine :=
  if _trigger_held e then e
  else
    let c := KeyDown (_trigger_key e) in
    let e1 := issue c e in
    if raises b c then log (LogKeyDownFailed (_trigger_key e1)) e1
    else set_held true e1.

(** [release_trigger]: nothing when not held; else [key_up], and the flag
    is cleared in the [finally] whether or not the call raised. *)
Definition release_trigger (b : Backend) (e : Engine) : Engine :=
  if negb (_trigger_held e) then e
  else
    let c := KeyUp (_trigger_key e) in
    let e1 := issue c e in
    let e2 := if raises b c then log (LogKeyUpFailed (_trigger_key e1)) e1 else e1 in
    set_held false e2.

(** The first four statements of [set_trigger_key]: the key it goes on
    with.  [None] is Python's [None]. *)
Definition normalize_key (key : option string) : string :=
  let key := match key with
             | None => "p"%string
             | Some s => if str_falsy s then "p"%string else s
             end in
  let key := py_first key in
  let key := if str_falsy (py_strip key) then "p"%string else key in
  py_lower key.

(** [set_trigger_key]. *)
Definition set_trigger_key (b : Backend) (key : option string) (e : Engine) : Engine :=
  let key := normalize_key key in
  if String.eqb key (_trigger_key e) then e
  else
    let was_held := _trigger_held e in
    let e := if was_held then release_trigger b e else e in
    let e := set_key key e in
    let e := if was_held then _ensure_trigger_down b e else e in
    log (LogTriggerKey (_trigger_key e)) e.

(** *** The loop of [_loop], one iteration at a time *)

(** The dict that [get_state] returns; [None] is an absent key. *)
Record StateDict := mkStateDict {
  st_fire_enabled : option bool;
  st_right_hold : option bool;
  st_left_hold : option bool;
  st_press_key_enabled : option bool
}.

(** [{}]. *)
Definition empty_state : StateDict := mkStateDict None None None None.

(** A custom pull function; [None] when the call, or [float] of its
    result, raises. *)
Definition Calc := Q -> Z -> option Q.

(** What the three getters return; a falsy state or weapon is [None], and
    so is a calc that is not callable. *)
Record Polled := mkPolled {
  p_state : option StateDict;
  p_weapon : option WeaponConfig;
  p_calc : option Calc
}.

(** What one iteration reads from outside: the getters ([None] when one
    of them raises), [time.perf_counter()] as read when shooting starts
    and as read for [elapsed]. *)
Record TickInput := mkTickInput {
  polled : option Polled;
  t_start : Q;
  t_now : Q
}.

(** The local variables of [_loop]. *)
Record Locals := mkLocals {
  count : Z;
  shooting : bool;
  start_time : Q
}.

(** Their values before the first iteration. *)
Definition locals0 : Locals := mkLocals 0 false 0.

(** What the rest of an iteration uses of the poll. *)
Record Frame := mkFrame {
  should_fire : bool;
  press_key_enabled : bool;
  cfg : WeaponConfig;
  calc : option Calc
}.

(** Lines 204-220: the poll, its fallback and the flags. *)
Definition poll (inp : TickInput) (e : Engine) : Engine * Frame :=
  let '(e, st, cfg, calc) :=
    match polled inp with
    | Some p =>
        (e,
         match p_state p with Some st => st | None => empty_state end,
         match p_weapon p with Some w => w | None => WeaponConfig_named "Default" end,
         p_calc p)
    | None =>
        (log LogPollError e, empty_state, WeaponConfig_named "Default", None)
    end in
  let fire_enabled := get_bool (st_fire_enabled st) true in
  let right_hold := get_bool (st_right_hold st) false in
  let left_hold := get_bool (st_left_hold st) false in
  let press_key_enabled := get_bool (st_press_key_enabled st) true in
  (e, mkFrame (fire_enabled && right_hold && left_hold) press_key_enabled cfg calc).

(** Lines 247-250, the built-in curve; [None] is the [ZeroDivisionError]
    of dividing by a zero [acceleration]. *)
Definition builtin_pull (cfg : WeaponConfig) (elapsed : Q) (count : Z) : option Q :=
  if Qltb elapsed (initialDuration cfg) then
    if Qeq_bool (acceleration cfg) 0 then None
    else Some (defaultPull cfg + py_float count / acceleration cfg)%Q
  else Some (steadyPull cfg).

(** Lines 242-253: the pull of a tick, with whether the handler ran. *)
Definition compute_pull (fr : Frame) (elapsed : Q) (count : Z) : Q * bool :=
  let attempt :=
    match calc fr with
    | Some f => f elapsed count
    | None => builtin_pull (cfg fr) elapsed count
    end in
  match attempt with
  | Some pull => (pull, false)
  | None => (steadyPull (cfg fr), true)
  end.

(** Lines 240-271: count, pull, mouse move, periodic log line.  The
    [time.sleep] that follows changes nothing here. *)
Definition pull_and_move (b : Backend) (inp : TickInput) (fr : Frame)
           (el : Engine * Locals) : Engine * Locals :=
  let '(e, l) := el in
  let l := mkLocals (count l + 1) (shooting l) (start_time l) in
  let elapsed := (t_now inp - start_time l)%Q in
  let '(pull, failed) := compute_pull fr elapsed (count l) in
  let e := if failed then log LogPullError e else e in
  let c := MoveMouse 0 (py_int pull) in
  let e := issue c e in
  let e := if raises b c then log LogMoveError e else e in
  let e := if (count l) mod 10 =? 0
           then log (LogTick elapsed (count l) (py_int pull)) e else e in
  (e, l).

(** Lines 204-284: the body of [while self._running]. *)
Definition loop_body (b : Backend) (inp : TickInput)
           (el : Engine * Locals) : Engine * Locals :=
  let '(e, l) := el in
  let '(e, fr) := poll inp e in
  let e := if negb (press_key_enabled fr) && _trigger_held e
           then release_trigger b e else e in
  let '(e, l) :=
    if should_fire fr && negb (shooting l) then
      let l := mkLocals 0 true (t_start inp) in
      let e := if press_key_enabled fr then _ensure_trigger_down b e else e in
      (log LogShootingStart e, l)
    else (e, l) in
  let '(e, l) :=
    if shooting l && should_fire fr then
      let e := if press_key_enabled fr
               then _ensure_trigger_down b e else release_trigger b e in
      pull_and_move b inp fr (e, l)
    else (e, l) in
  let '(e, l) :=
    if shooting l && negb (should_fire fr) then
      let l := mkLocals 0 false 0 in
      let e := release_trigger b e in
      (log LogShootingEnd e, l)
    else (e, l) in
  (e, l).


(** [_loop] over the inputs of its iterations, as long as [_running]
    holds; line 287 when it no longer does.  [None] when the inputs run
    out with the loop still going. *)
Fixpoint _loop (b : Backend) (inps : list TickInput)
         (el : Engine * Locals) : option Engine :=
  if _running (fst el) then
    match inps with
    | [] => None
    | inp :: inps' => _loop b inps' (loop_body b inp el)
    end
  else Some (release_trigger b (fst el)).

(** The held flag agrees with the calls the backend has received: the
    trigger key is down exactly when the flag is set, and no other key is
    down. *)
Definition consistent (e : Engine) : Prop :=
  forall k, key_is_down k (calls e) = _trigger_held e && String.eqb k (_trigger_key e).

(** [stop] with nothing else running in between: line 131, line 132, and
    line 287 of the loop that [join] waits for. *)
Definition stop_uninterrupted (b : Backend) (e : Engine) : Engine :=
  log LogStopped (release_trigger b (release_trigger b (set_running false e))).

End RecoilEngine.

(** ** The engine's two threads, statement by statement

    [start] runs [_loop] on a thread of its own while [stop],
    [set_trigger_key] and [release_trigger] run on the caller's thread, and
    both sides read and write [_trigger_key] and [_trigger_held] with no
    lock.  Here each method is a sequence of atomic steps, one per access
    to those attributes or to the backend, and a schedule says which thread
    takes the next step. *)

Module Interleaving.
Import RecoilEngine.

Inductive Op :=
(* _ensure_trigger_down: line 159, line 162, line 163 *)
| EnsureTest | EnsureKeyDown | EnsureSetHeld
(* release_trigger: line 169, line 172, line 176 *)
| ReleaseTest | ReleaseKeyUp | ReleaseClear
(* set_trigger_key: lines 142-155, line 153, line 156 *)
| SetKey (key : option string) | SetKeyAssign (key : string) | SetKeyLog
(* start: lines 122-127 *)
| StartOp
(* stop: line 131, lines 133-137, line 138 *)
| StopClear | StopJoin | StopLog
(* _loop: line 203, lines 204-220, 221, 225-232, 232, 235-239, 240-271,
   274-279, 279 *)
| LoopTest | LoopPoll
| LoopGate (fr : Frame) | LoopBegin (fr : Frame) | LoopBeginLog
| LoopFire (fr : Frame) | LoopPull (fr : Frame)
| LoopEnd (fr : Frame) | LoopEndLog.

(** One step of a thread whose locals are [l]: the new engine and locals,
    and the steps it puts in front of what the thread has left to do.
    [StartOp] and [StopJoin] involve the other thread and are steps of
    the system below. *)
Definition exec (b : Backend) (w : TickInput) (o : Op)
           (e : Engine) (l : Locals) : Engine * Locals * list Op :=
  match o with
  | EnsureTest => (e, l, if _trigger_held e then [] else [EnsureKeyDown])
  | EnsureKeyDown =>
      let c := KeyDown (_trigger_key e) in
      let e1 := issue c e in
      if raises b c then (log (LogKeyDownFailed (_trigger_key e1)) e1, l, [])
      else (e1, l, [EnsureSetHeld])
  | EnsureSetHeld => (set_held true e, l, [])
  | ReleaseTest => (e, l, if negb (_trigger_held e) then [] else [ReleaseKeyUp])
  | ReleaseKeyUp =>
      let c := KeyUp (_trigger_key e) in
      let e1 := issue c e in
      (if raises b c then log (LogKeyUpFailed (_trigger_key e1)) e1 else e1,
       l, [ReleaseClear])
  | ReleaseClear => (set_held false e, l, [])
  | SetKey key =>
      let key := normalize_key key in
      if String.eqb key (_trigger_key e) then (e, l, [])
      else
        let was_held := _trigger_held e in
        (e, l,
         (if was_held then [ReleaseTest] else [])
           ++ [SetKeyAssign key]
           ++ (if was_held then [EnsureTest] else [])
           ++ [SetKeyLog])
  | SetKeyAssign key => (set_key key e, l, [])
  | SetKeyLog => (log (LogTriggerKey (_trigger_key e)) e, l, [])
  | StartOp => (e, l, [])
  | StopClear => (set_running false e, l, [])
  | StopJoin => (e, l, [])
  | StopLog => (log LogStopped e, l, [])
  | LoopTest => (e, l, if _running e then [LoopPoll] else [ReleaseTest])
  | LoopPoll => let '(e, fr) := poll w e in (e, l, [LoopGate fr])
  | LoopGate fr =>
      (e, l,
       (if negb (press_key_enabled fr) && _trigger_held e then [ReleaseTest] else [])
         ++ [LoopBegin fr])
  | LoopBegin fr =>
      if should_fire fr && negb (shooting l) then
        (e, mkLocals 0 true (t_start w),
         (if press_key_enabled fr then [EnsureTest] else [])
           ++ [LoopBeginLog; LoopFire fr])
      else (e, l, [LoopFire fr])
  | LoopBeginLog => (log LogShootingStart e, l, [])
  | LoopFire fr =>
      if shooting l && should_fire fr then
        (e, l,
         [if press_key_enabled fr then EnsureTest else ReleaseTest;
          LoopPull fr; LoopEnd fr])
      else (e, l, [LoopEnd fr])
  | LoopPull fr => let '(e, l) := pull_and_move b w fr (e, l) in (e, l, [])
  | LoopEnd fr =>
      if shooting l && negb (should_fire fr) then
        (e, mkLocals 0 false 0, [ReleaseTest; LoopEndLog; LoopTest])
      else (e, l, [LoopTest])
  | LoopEndLog => (log LogShootingEnd e, l, [])
  end.

(** A thread running [_loop]: its locals and what it has left to do; it
    has finished when nothing is left. *)
Record Thread := mkThread { locals : Locals; code : list Op }.

(** The engine, what the getters and the clock return at the moment, the
    steps left on the caller's thread, and the threads that [start]
    created, newest first: the head is [self._thread]. *)
Record System := mkSystem {
  eng : Engine;
  world : TickInput;
  main : list Op;
  loops : list Thread
}.

Inductive Pick :=
| RunMain
| RunLoop (i : nat)
| SetWorld (w : TickInput).

Fixpoint update_nth {A} (i : nat) (x : A) (xs : list A) : list A :=
  match xs, i with
  | [], _ => []
  | _ :: xs', O => x :: xs'
  | y :: xs', S i' => y :: update_nth i' x xs'
  end.

(** A step of the caller's thread.  [start] does nothing when [_running]
    already holds, and else sets it and creates the thread.  [join]
    returns once [self._thread] has finished (or is [None]); its timeout
    of one second is not modelled, so a [stop] here never returns with the
    loop still going. *)
Definition step_main (b : Backend) (s : System) : System :=
  match main s with
  | [] => s
  | StartOp :: k =>
      if _running (eng s) then mkSystem (eng s) (world s) k (loops s)
      else mkSystem (log LogStarted (set_running true (eng s))) (world s) k
                    (mkThread locals0 [LoopTest] :: loops s)
  | StopJoin :: k =>
      match loops s with
      | [] => mkSystem (eng s) (world s) k (loops s)
      | t :: _ =>
          match code t with
          | [] => mkSystem (eng s) (world s) k (loops s)
          | _ :: _ => s
          end
      end
  | o :: k =>
      let '(e, _, pre) := exec b (world s) o (eng s) locals0 in
      mkSystem e (world s) (pre ++ k) (loops s)
  end.

(** A step of the [i]-th loop thread. *)
Definition step_loop (b : Backend) (i : nat) (s : System) : System :=
  match nth_error (loops s) i with
  | Some (mkThread l (o :: k)) =>
      let '(e, l', pre) := exec b (world s) o (eng s) l in
      mkSystem e (world s) (main s) (update_nth i (mkThread l' (pre ++ k)) (loops s))
  | _ => s
  end.

Definition step (b : Backend) (s : System) (p : Pick) : System :=
  match p with
  | RunMain => step_main b s
  | RunLoop i => step_loop b i s
  | SetWorld w => mkSystem (eng s) w (main s) (loops s)
  end.

Definition run_schedule (b : Backend) (sched : list Pick) (s : System) : System :=
  fold_left (step b) sched s.

(** The public methods, as the caller's thread runs them. *)
Inductive Call :=
| CallStart
| CallStop
| CallSetTriggerKey (key : option string)
| CallReleaseTrigger.

Definition call_ops (c : Call) : list Op :=
  match c with
  | CallStart => [StartOp]
  | CallStop => [StopClear; ReleaseTest; StopJoin; StopLog]
  | CallSetTriggerKey key => [SetKey key]
  | CallReleaseTrigger => [ReleaseTest]
  end.

(** A fresh engine whose owner is about to make the calls [cs]. *)
Definition boot (w : TickInput) (cs : list Call) : System :=
  mkSystem init w (flat_map call_ops cs) [].

(** Every call has returned and every loop thread has finished. *)
Definition quiescent (s : System) : bool :=
  match main s with
  | [] => forallb (fun t => match code t with [] => true | _ => false end) (loops s)
  | _ => false
  end.

(** A thread left alone: it takes steps until it has nothing left, or is
    back at the loop test. *)
Definition Config : Type := Engine * Locals * list Op.

Fixpoint run_alone (b : Backend) (w : TickInput) (fuel : nat) (x : Config) : Config :=
  match fuel with
  | O => x
  | S fuel' =>
      match x with
      | (_, _, []) => x
      | (_, _, LoopTest :: _) => x
      | (e, l, o :: k) =>
          let '(e', l', pre) := exec b w o e l in
          run_alone b w fuel' (e', l', pre ++ k)
      end
  end.

(** Left alone, a thread in [x] gets to [y]. *)
Definition runs_to (b : Backend) (w : TickInput) (x y : Config) : Prop :=
  exists n, forall m, run_alone b w (n + m) x = run_alone b w m y.

(** Steps after which the thread still has a clearing of [_trigger_held]
    ahead of it: those of [release_trigger], and those of the loop, which
    ends in one. *)
Definition is_releaser (o : Op) : bool :=
  match o with
  | ReleaseTest | ReleaseKeyUp | ReleaseClear
  | LoopTest | LoopPoll | LoopGate _ | LoopBegin _ | LoopFire _ | LoopEnd _ => true
  | _ => false
  end.

(** Steps that lead to a setting of [_trigger_held]. *)
Definition is_setter (o : Op) : bool :=
  match o with
  | EnsureTest | EnsureKeyDown | EnsureSetHeld | SetKey _ => true
  | _ => false
  end.

Definition pending (k : list Op) : bool := existsb is_releaser k.

(** Every step that may set the flag has a clearing step after it. *)
Fixpoint safe (k : list Op) : bool :=
  match k with
  | [] => true
  | o :: k' => (if is_setter o then pending k' else true) && safe k'
  end.

(** What keeps the flag from staying set for good: the code of every
    thread is safe, and while the flag is set some thread has a clearing
    step ahead. *)
Definition flag_guarded (s : System) : Prop :=
  safe (main s) = true
  /\ forallb (fun t => safe (code t)) (loops s) = true
  /\ (_trigger_held (eng s) = true ->
      pending (main s) || existsb (fun t => pending (code t)) (loops s) = true).

(** The state in which both mouse buttons are held and every flag is on. *)
Definition firing : TickInput :=
  mkTickInput
    (Some (mkPolled (Some (mkStateDict (Some true) (Some true) (Some true) (Some true)))
                    None None))
    0 (1 # 100).

(** [start(); set_trigger_key('q'); stop()], with the loop thread
    interrupted between lines 162 and 163 by [set_trigger_key]. *)
Definition race_calls : list Call :=
  [CallStart; CallSetTriggerKey (Some "q"%string); CallStop].

Definition race_schedule : list Pick :=
  [RunMain]                                  (* start() *)
    ++ repeat (RunLoop 0) 6                  (* up to and including key_down('p') *)
    ++ repeat RunMain 3                      (* set_trigger_key('q') *)
    ++ [RunLoop 0]                           (* self._trigger_held = True *)
    ++ repeat RunMain 4                      (* stop(), up to join *)
    ++ repeat (RunLoop 0) 12                 (* rest of the iteration, exit *)
    ++ repeat RunMain 2.                     (* join returns, log *)

End Interleaving.

(** ** The engine with no method and no iteration interrupted

    The same calls and the same loop, each running from its first
    statement to its last before anything else runs. *)

Module Atomic.
Import RecoilEngine.

Inductive Event :=
| Iteration (inp : TickInput)
| Called (c : Interleaving.Call).

(** [start], lines 122-127. *)
Definition start (e : Engine) : Engine :=
  if _running e then e else log LogStarted (set_running true e).

(** One event on the engine and the locals of its loop thread.  An
    iteration happens only while [_running] holds; a [start] that creates
    a thread gives it the locals of lines 199-201; [stop] includes line
    287 of the thread it waits for. *)
Definition step (b : Backend) (el : Engine * Locals) (ev : Event) : Engine * Locals :=
  match ev with
  | Iteration inp => if _running (fst el) then loop_body b inp el else el
  | Called Interleaving.CallStart =>
      (start (fst el), if _running (fst el) then snd el else locals0)
  | Called Interleaving.CallStop => (stop_uninterrupted b (fst el), snd el)
  | Called (Interleaving.CallSetTriggerKey key) =>
      (set_trigger_key b key (fst el), snd el)
  | Called Interleaving.CallReleaseTrigger => (release_trigger b (fst el), snd el)
  end.

Definition run (b : Backend) (evs : list Event) : Engine * Locals :=
  fold_left (step b) evs (init, locals0).

End Atomic.

(** ** [core/engine.py]: [AutoClickThread] *)

Module AutoClickThread.

Inductive MouseEvent := LeftDown | LeftUp.

Inductive LogMsg := LogClickingOn | LogClickingOff | LogReset.

(** The instance attributes, with the trace of [mouse_event] calls and of
    log lines (oldest first). *)
Record Clicker := mkClicker {
  _delay_ms : Z;
  _rand_ms : Z;
  _running : bool;
  _clicking : bool;
  _synthing : bool;
  _last_synth_ts : Q;
  _hold_shadow : bool;
  events : list MouseEvent;
  logged : list LogMsg
}.

(** [AutoClickThread.__init__]. *)
Definition init (delay_ms rand_ms : Z) : Clicker :=
  mkClicker delay_ms rand_ms true false false 0 false [] [].

Definition set_running (v : bool) (c : Clicker) : Clicker :=
  mkClicker (_delay_ms c) (_rand_ms c) v (_clicking c) (_synthing c)
            (_last_synth_ts c) (_hold_shadow c) (events c) (logged c).

Definition set_clicking (v : bool) (c : Clicker) : Clicker :=
  mkClicker (_delay_ms c) (_rand_ms c) (_running c) v (_synthing c)
            (_last_synth_ts c) (_hold_shadow c) (events c) (logged c).

Definition set_synthing (v : bool) (c : Clicker) : Clicker :=
  mkClicker (_delay_ms c) (_rand_ms c) (_running c) (_clicking c) v
            (_last_synth_ts c) (_hold_shadow c) (events c) (logged c).

Definition set_last_synth_ts (t : Q) (c : Clicker) : Clicker :=
  mkClicker (_delay_ms c) (_rand_ms c) (_running c) (_clicking c) (_synthing c)
            t (_hold_shadow c) (events c) (logged c).

Definition set_hold_shadow (v : bool) (c : Clicker) : Clicker :=
  mkClicker (_delay_ms c) (_rand_ms c) (_running c) (_clicking c) (_synthing c)
            (_last_synth_ts c) v (events c) (logged c).

Definition emit (ev : MouseEvent) (c : Clicker) : Clicker :=
  mkClicker (_delay_ms c) (_rand_ms c) (_running c) (_clicking c) (_synthing c)
            (_last_synth_ts c) (_hold_shadow c) (events c ++ [ev]) (logged c).

Definition log (m : LogMsg) (c : Clicker) : Clicker :=
  mkClicker (_delay_ms c) (_rand_ms c) (_running c) (_clicking c) (_synthing c)
            (_last_synth_ts c) (_hold_shadow c) (events c) (logged c ++ [m]).

(** [_wrap_begin] and [_wrap_end] around [State.begin_synth] and
    [State.end_synth], which do not raise; [g] is the guard of [State]. *)
Definition _begin_synth (cg : Clicker * Z) : Clicker * Z :=
  let '(c, g) := cg in (set_synthing true c, SynthGuard.begin_synth g).

Definition _end_synth (cg : Clicker * Z) : Clicker * Z :=
  let '(c, g) := cg in (set_synthing false c, SynthGuard.end_synth g).

(** [click_once]; [t_done] is [time.perf_counter()] as read on line 336. *)
Definition click_once (t_done : Q) (cg : Clicker * Z) : Clicker * Z :=
  let '(c, g) := _begin_synth cg in
  let c := emit LeftUp (emit LeftDown c) in
  let '(c, g) := _end_synth (c, g) in
  (set_last_synth_ts t_done c, g).

(** [clear_click_state]. *)
Definition clear_click_state (c : Clicker) : Clicker :=
  let c := if _clicking c then log LogReset (set_clicking false c) else c in
  set_hold_shadow false c.

(** [stop]. *)
Definition stop (c : Clicker) : Clicker :=
  clear_click_state (set_running false c).

(** [_physical_left_pressed]: bit 15 of [GetAsyncKeyState]; [None] is a
    call that raised. *)
Definition _physical_left_pressed (async_key_state : option Z) : bool :=
  match async_key_state with
  | Some v => negb (Z.land v 32768 =? 0)
  | None => false
  end.

(** What one iteration of [run] reads from outside. *)
Record ClickInput := mkClickInput {
  st_auto_click_enabled : option bool;
  st_left_hold : option bool;
  async_key_state : option Z;
  now : Q;          (* time.perf_counter() on line 362 *)
  t_done : Q;       (* time.perf_counter() on line 336 *)
  jitter : Z        (* what random.randint returns on line 376 *)
}.

(** [random.randint(a, b)] may return [r]. *)
Definition randint_returns (a b r : Z) : Prop := a <= r <= b.

(** Lines 364-367: the latch. *)
Definition update_shadow (user_hold physical_hold : bool) (now : Q)
           (c : Clicker) : Clicker :=
  if user_hold then set_hold_shadow true c
  else if negb physical_hold && negb (_synthing c)
          && Qltb (3 # 100) (now - _last_synth_ts c)
  then set_hold_shadow false c
  else c.

(** Line 376: the delay in milliseconds. *)
Definition click_delay (c : Clicker) (r : Z) : Z := Z.max 1 (_delay_ms c + r).

(** Lines 358-382: the body of [while self._running], with the seconds it
    sleeps at its end. *)
Definition run_body (inp : ClickInput) (cg : Clicker * Z) : Clicker * Z * Q :=
  let '(c, g) := cg in
  let auto_enabled := get_bool (st_auto_click_enabled inp) false in
  let user_hold := get_bool (st_left_hold inp) false in
  let physical_hold := _physical_left_pressed (async_key_state inp) in
  let c := update_shadow user_hold physical_hold (now inp) c in
  let left_hold := physical_hold || _hold_shadow c in
  if auto_enabled && left_hold then
    let c := if negb (_clicking c) then log LogClickingOn (set_clicking true c) else c in
    let '(c, g) := click_once (t_done inp) (c, g) in
    let delay := click_delay c (jitter inp) in
    (c, g, (inject_Z delay / 1000)%Q)
  else
    let c := if _clicking c then log LogClickingOff (set_clicking false c) else c in
    (c, g, 1 # 100).

End AutoClickThread.

(** ** Python [dict] and [set] as the application uses them *)

(** [d.get(k)]; insertion order is kept, as in Python. *)
Fixpoint dict_get {V : Type} (k : string) (d : list (string * V)) : option V :=
  match d with
  | [] => None
  | (k', v) :: d' => if String.eqb k' k then Some v else dict_get k d'
  end.

(** [k in d]. *)
Definition dict_mem {V : Type} (k : string) (d : list (string * V)) : bool :=
  match dict_get k d with Some _ => true | None => false end.

(** [d[k] = v]: in place when [k] is there, at the end when it is not. *)
Fixpoint dict_set {V : Type} (k : string) (v : V) (d : list (string * V))
  : list (string * V) :=
  match d with
  | [] => [(k, v)]
  | (k', v') :: d' =>
      if String.eqb k' k then (k', v) :: d' else (k', v') :: dict_set k v d'
  end.

(** [x in s], [s.add(x)] and [s.discard(x)] for a [set] of strings. *)
Definition set_mem (x : string) (s : list string) : bool := existsb (String.eqb x) s.

Definition set_add (x : string) (s : list string) : list string :=
  if set_mem x s then s else s ++ [x].

Definition set_discard (x : string) (s : list string) : list string :=
  filter (fun y => negb (String.eqb x y)) s.

(** ** [core/input_backend.py]: [WinAPIBackend] *)

Module WinAPIBackend.

(** An argument of [_ensure_char]: [None], an [int], or a [str]. *)
Inductive KeyArg :=
| KNone
| KInt (n : Z)
| KStr (s : string).

(** [chr(n)]: the code point, or [None] for the [ValueError] outside
    [0, 0x10FFFF]. *)
Definition py_chr (n : Z) : option N :=
  if (0 <=? n) && (n <=? 1114111) then Some (Z.to_N n) else None.

(** [_ensure_char]: a string of at most one character, given as the code
    point of that character, [None] being the empty string. *)
Definition _ensure_char (key : KeyArg) : option N :=
  match key with
  | KNone => None
  | KInt n =>
      match py_chr (Z.land n 65535) with
      | Some c => Some c
      | None => None
      end
  | KStr EmptyString => None
  | KStr (String c _) => Some (N_of_ascii c)
  end.

(** The fields of [KEYBDINPUT] and [MOUSEINPUT] that are not constant. *)
Record KEYBDINPUT := mkKEYBDINPUT { wVk : Z; wScan : Z; ki_dwFlags : Z }.
Record MOUSEINPUT := mkMOUSEINPUT { dx : Z; dy : Z; mouseData : Z; mi_dwFlags : Z }.

Inductive INPUT :=
| InputKeyboard (ki : KEYBDINPUT)
| InputMouse (mi : MOUSEINPUT).

Definition MOUSEEVENTF_MOVE : Z := 1.
Definition KEYEVENTF_SCANCODE : Z := 8.
Definition KEYEVENTF_KEYUP : Z := 2.

(** What a [ctypes] field of type [c_ushort] and one of type [c_long] keep
    of a Python [int]. *)
Definition c_ushort (n : Z) : Z := n mod 65536.
Definition c_long (n : Z) : Z := (n + 2147483648) mod 4294967296 - 2147483648.

Section User32.

(** [user32.VkKeyScanW] and [user32.MapVirtualKeyW(_, 0)]. *)
Variable VkKeyScanW : N -> Z.
Variable MapVirtualKeyW : Z -> Z.

(** [_send_key]: the [INPUT] passed to [SendInput], if any. *)
Definition _send_key (key : KeyArg) (is_up : bool) : option INPUT :=
  match _ensure_char key with
  | None => None
  | Some ch =>
      let vk := VkKeyScanW ch in
      if vk =? -1 then None
      else
        let sc := MapVirtualKeyW (Z.land vk 255) in
        if sc =? 0 then None
        else
          let flags := KEYEVENTF_SCANCODE in
          let flags := if is_up then Z.lor flags KEYEVENTF_KEYUP else flags in
          Some (InputKeyboard (mkKEYBDINPUT 0 (c_ushort sc) flags))
  end.

(** [_send_mouse_move]. *)
Definition _send_mouse_move (x y : Z) : INPUT :=
  InputMouse (mkMOUSEINPUT (c_long x) (c_long y) 0 MOUSEEVENTF_MOVE).

(** The methods, by the [INPUT]s they send, in order. *)
Definition move_mouse (x y : Z) : list INPUT := [_send_mouse_move x y].

Definition sent (i : option INPUT) : list INPUT :=
  match i with Some x => [x] | None => [] end.

Definition key_down (ch : string) : list INPUT := sent (_send_key (KStr ch) false).
Definition key_up (ch : string) : list INPUT := sent (_send_key (KStr ch) true).
Definition key_tap (ch : string) : list INPUT := key_down ch ++ key_up ch.

End User32.

End WinAPIBackend.

(** ** [app.py]: [HotkeyManager] *)

Module HotkeyManager.

Inductive LogMsg :=
| LogBound (action key : string)
| LogCleared (action : string).

(** A key event of the [keyboard] library. *)
Record KeyEvent := mkKeyEvent { ev_name : option string; event_type : string }.

Section Callbacks.

(** What [register] is given as callback. *)
Variable A : Type.

(** An entry [{"key": ..., "callback": ...}]. *)
Record Binding := mkBinding { b_key : option string; b_callback : A }.

(** The attributes, with the callbacks handed to [root.after] and the log
    lines (oldest first). *)
Record Manager := mkManager {
  _bindings : list (string * Binding);
  _paused : bool;
  _pressed : list string;
  _hook : bool;
  scheduled : list A;
  logged : list LogMsg
}.

(** [HotkeyManager.__init__]. *)
Definition init : Manager := mkManager [] false [] true [] [].

(** [update_key]. *)
Definition update_key (action : string) (key : option string) (m : Manager) : Manager :=
  match dict_get action (_bindings m) with
  | None => m
  | Some info =>
      let norm := py_lower (py_strip (match key with Some k => k | None => EmptyString end)) in
      let bs := dict_set action (mkBinding (Some norm) (b_callback info)) (_bindings m) in
      mkManager bs (_paused m) (_pressed m) (_hook m) (scheduled m)
                (logged m ++ [if str_falsy norm then LogCleared action
                              else LogBound action norm])
  end.

(** [register]. *)
Definition register (action : string) (key : option string) (callback : A)
           (m : Manager) : Manager :=
  update_key action key
    (mkManager (dict_set action (mkBinding None callback) (_bindings m))
               (_paused m) (_pressed m) (_hook m) (scheduled m) (logged m)).

(** [pause_all]. *)
Definition pause_all (m : Manager) : Manager :=
  if _paused m then m
  else mkManager (_bindings m) true [] (_hook m) (scheduled m) (logged m).

(** [resume_all]. *)
Definition resume_all (m : Manager) : Manager :=
  if negb (_paused m) then m
  else mkManager (_bindings m) false [] (_hook m) (scheduled m) (logged m).

(** [shutdown]. *)
Definition shutdown (m : Manager) : Manager :=
  mkManager (_bindings m) true [] false (scheduled m) (logged m).

(** The callbacks bound to [name], in the order of the dict. *)
Definition bound_to (name : string) (bs : list (string * Binding)) : list A :=
  map (fun ab => b_callback (snd ab))
      (filter (fun ab => match b_key (snd ab) with
                         | Some k => String.eqb k name
                         | None => false
                         end) bs).

(** [_handle_event]. *)
Definition _handle_event (ev : KeyEvent) (m : Manager) : Manager :=
  if _paused m then m
  else
    let name := py_lower (match ev_name ev with Some n => n | None => EmptyString end) in
    if str_falsy name then m
    else if String.eqb (event_type ev) "down" then
      if set_mem name (_pressed m) then m
      else mkManager (_bindings m) (_paused m) (set_add name (_pressed m)) (_hook m)
                     (scheduled m ++ bound_to name (_bindings m)) (logged m)
    else if String.eqb (event_type ev) "up" then
      mkManager (_bindings m) (_paused m) (set_discard name (_pressed m)) (_hook m)
                (scheduled m) (logged m)
    else m.

End Callbacks.

Arguments mkBinding {A}.
Arguments b_key {A}.
Arguments b_callback {A}.
Arguments mkManager {A}.
Arguments _bindings {A}.
Arguments _paused {A}.
Arguments _pressed {A}.
Arguments _hook {A}.
Arguments scheduled {A}.
Arguments logged {A}.
Arguments init {A}.
Arguments update_key {A}.
Arguments register {A}.
Arguments pause_all {A}.
Arguments resume_all {A}.
Arguments shutdown {A}.
Arguments bound_to {A}.
Arguments _handle_event {A}.

End HotkeyManager.

(** ** [app.py]: [State] and [RecoilControllerApp] *)

Module App.

(** A value read by [json.loads]. *)
#[local] Unset Elimination Schemes.
Inductive Json :=
| JNull
| JBool (v : bool)
| JInt (n : Z)
| JFloat (q : Q)
| JStr (s : string)
| JList (l : list Json)
| JObj (kv : list (string * Json)).
#[local] Set Elimination Schemes.

(** [bool(v)]. *)
Definition truthy (v : Json) : bool :=
  match v with
  | JNull => false
  | JBool x => x
  | JInt n => negb (n =? 0)
  | JFloat q => negb (Qeq_bool q 0)
  | JStr s => negb (str_falsy s)
  | JList l => match l with [] => false | _ => true end
  | JObj kv => match kv with [] => false | _ => true end
  end.

Definition DEFAULT_KEY_BINDINGS : list (string * string) :=
  [("fire", "f8"); ("flash", "f9"); ("auto_click", "="); ("press_key", "f10")]%string.

(** [State]. *)
Record State := mkState {
  fire_enabled : bool;
  flash_mode : bool;
  auto_click_enabled : bool;
  press_key_enabled : bool;
  press_key_char : string;
  current_weapon : option WeaponConfig;
  right_hold : bool;
  left_hold : bool;
  _synth_guard : Z;
  key_bindings : list (string * string)
}.

(** [State.__init__]. *)
Definition State_init : State :=
  mkState true false false true "p" None false false SynthGuard.init DEFAULT_KEY_BINDINGS.

Definition with_guard (g : Z) (s : State) : State :=
  mkState (fire_enabled s) (flash_mode s) (auto_click_enabled s) (press_key_enabled s)
          (press_key_char s) (current_weapon s) (right_hold s) (left_hold s) g
          (key_bindings s).

Definition with_holds (r l : bool) (s : State) : State :=
  mkState (fire_enabled s) (flash_mode s) (auto_click_enabled s) (press_key_enabled s)
          (press_key_char s) (current_weapon s) r l (_synth_guard s) (key_bindings s).

Definition with_flags (fire flash auto press : bool) (s : State) : State :=
  mkState fire flash auto press (press_key_char s) (current_weapon s)
          (right_hold s) (left_hold s) (_synth_guard s) (key_bindings s).

Definition with_press_key_char (c : string) (s : State) : State :=
  mkState (fire_enabled s) (flash_mode s) (auto_click_enabled s) (press_key_enabled s)
          c (current_weapon s) (right_hold s) (left_hold s) (_synth_guard s)
          (key_bindings s).

Definition with_current_weapon (w : option WeaponConfig) (s : State) : State :=
  mkState (fire_enabled s) (flash_mode s) (auto_click_enabled s) (press_key_enabled s)
          (press_key_char s) w (right_hold s) (left_hold s) (_synth_guard s)
          (key_bindings s).

Definition with_key_bindings (kb : list (string * string)) (s : State) : State :=
  mkState (fire_enabled s) (flash_mode s) (auto_click_enabled s) (press_key_enabled s)
          (press_key_char s) (current_weapon s) (right_hold s) (left_hold s)
          (_synth_guard s) kb.

(** [State.begin_synth], [State.end_synth], [State.is_synth]. *)
Definition begin_synth (s : State) : State :=
  with_guard (SynthGuard.begin_synth (_synth_guard s)) s.

Definition end_synth (s : State) : State :=
  with_guard (SynthGuard.end_synth (_synth_guard s)) s.

Definition is_synth (s : State) : bool := SynthGuard.is_synth (_synth_guard s).

(** [State.as_dict]. *)
Definition as_dict (s : State) : list (string * bool) :=
  [("fire_enabled", fire_enabled s);
   ("flash_mode", flash_mode s);
   ("auto_click_enabled", auto_click_enabled s);
   ("press_key_enabled", press_key_enabled s);
   ("right_hold", right_hold s);
   ("left_hold", left_hold s)]%string.

(** The keys that [RecoilEngine._loop] looks up in what [get_state]
    returns, and what the three getters built on lines 633-635 return:
    [PluginManager.get_calc] is always [None]. *)
Definition engine_state (d : list (string * bool)) : RecoilEngine.StateDict :=
  RecoilEngine.mkStateDict (dict_get "fire_enabled" d) (dict_get "right_hold" d)
                           (dict_get "left_hold" d) (dict_get "press_key_enabled" d).

Definition engine_poll (s : State) : RecoilEngine.Polled :=
  RecoilEngine.mkPolled
    (Some (engine_state (as_dict s)))
    (Some (match current_weapon s with
           | Some w => w
           | None => WeaponConfig_named "Default"
           end))
    None.

(** The buttons that [pynput] reports. *)
Inductive Button := ButtonLeft | ButtonRight | ButtonOther.

(** [_on_mouse], on the state. *)
Definition _on_mouse (btn : Button) (pressed : bool) (s : State) : State :=
  if is_synth s then s
  else
    match btn with
    | ButtonRight => with_holds pressed (left_hold s) s
    | ButtonLeft => with_holds (right_hold s) pressed s
    | ButtonOther => s
    end.

(** The dict that [_persist_state] writes. *)
Record Settings := mkSettings {
  s_fire_enabled : bool;
  s_flash_mode : bool;
  s_auto_click_enabled : bool;
  s_press_key_enabled : bool;
  s_press_key_char : string;
  s_click_delay : Z;
  s_click_rand : Z;
  s_key_bindings : list (string * string);
  s_current_weapon : option string
}.

(** What [json.loads] reads back from what [json.dumps] wrote for it. *)
Definition to_json (d : Settings) : Json :=
  JObj [("fire_enabled", JBool (s_fire_enabled d));
        ("flash_mode", JBool (s_flash_mode d));
        ("auto_click_enabled", JBool (s_auto_click_enabled d));
        ("press_key_enabled", JBool (s_press_key_enabled d));
        ("press_key_char", JStr (s_press_key_char d));
        ("click_delay", JInt (s_click_delay d));
        ("click_rand", JInt (s_click_rand d));
        ("key_bindings", JObj (map (fun kv => (fst kv, JStr (snd kv))) (s_key_bindings d)));
        ("current_weapon", match s_current_weapon d with
                           | Some n => JStr n
                           | None => JNull
                           end)]%string.

(** The hotkey callbacks of [_register_hotkeys]. *)
Inductive Action := ToggleFire | TogglePressKey | ToggleFlash | ToggleAuto.

Inductive LogMsg :=
| LogFire (on : bool)
| LogTrigger (on : bool)
| LogClicker (on : bool)
| LogClickParams (delay rand : Z)
| LogTriggerKey (c : string)
| LogNoWeapons
| LogWeapon (n : string)
| LogRefreshed
| LogFlash (on : bool)
| LogFlashHookFailed
| LogExiting.

(** What the application does to the outside, in order: tones, log lines,
    calls into the control panel, and writes of the settings file. *)
Inductive Effect :=
| Tone (n : string)
| Log (m : LogMsg)
| UiSyncFire (v : bool)
| UiSyncAuto (v : bool)
| UiSyncPress (v : bool)
| UiSyncFlash (v : bool)
| UiSyncPressKeyChar (c : string)
| UiSetClickFields (delay rand : Z)
| UiUpdateCurrentWeapon (n : string)
| UiHighlightWeapon (i : Z)
| UiRefreshWeaponList (names : list string) (selected : Z)
| UiUpdateKeyLabel (action key : string)
| UiClose
| StopMouseListener
| StopAllAudio
| Persist (d : Settings).

(** [RecoilControllerApp] after [__init__]; [flash_hook_id] tells whether
    the attribute is not [None]. *)
Record App := mkApp {
  weapons : list WeaponConfig;
  state : State;
  click_delay : Z;
  click_rand : Z;
  engine : RecoilEngine.Engine;
  click_thread : AutoClickThread.Clicker;
  hotkeys : HotkeyManager.Manager Action;
  flash_hook_id : bool;
  _shutting_down : bool;
  _settings_cache : Json;
  effects : list Effect
}.

Definition with_weapons (ws : list WeaponConfig) (a : App) : App :=
  mkApp ws (state a) (click_delay a) (click_rand a) (engine a) (click_thread a)
        (hotkeys a) (flash_hook_id a) (_shutting_down a) (_settings_cache a) (effects a).

Definition with_state (s : State) (a : App) : App :=
  mkApp (weapons a) s (click_delay a) (click_rand a) (engine a) (click_thread a)
        (hotkeys a) (flash_hook_id a) (_shutting_down a) (_settings_cache a) (effects a).

Definition with_click (d r : Z) (a : App) : App :=
  mkApp (weapons a) (state a) d r (engine a) (click_thread a)
        (hotkeys a) (flash_hook_id a) (_shutting_down a) (_settings_cache a) (effects a).

Definition with_engine (e : RecoilEngine.Engine) (a : App) : App :=
  mkApp (weapons a) (state a) (click_delay a) (click_rand a) e (click_thread a)
        (hotkeys a) (flash_hook_id a) (_shutting_down a) (_settings_cache a) (effects a).

Definition with_click_thread (c : AutoClickThread.Clicker) (a : App) : App :=
  mkApp (weapons a) (state a) (click_delay a) (click_rand a) (engine a) c
        (hotkeys a) (flash_hook_id a) (_shutting_down a) (_settings_cache a) (effects a).

Definition with_hotkeys (h : HotkeyManager.Manager Action) (a : App) : App :=
  mkApp (weapons a) (state a) (click_delay a) (click_rand a) (engine a) (click_thread a)
        h (flash_hook_id a) (_shutting_down a) (_settings_cache a) (effects a).

Definition with_flash_hook (v : bool) (a : App) : App :=
  mkApp (weapons a) (state a) (click_delay a) (click_rand a) (engine a) (click_thread a)
        (hotkeys a) v (_shutting_down a) (_settings_cache a) (effects a).

Definition with_shutting_down (v : bool) (a : App) : App :=
  mkApp (weapons a) (state a) (click_delay a) (click_rand a) (engine a) (click_thread a)
        (hotkeys a) (flash_hook_id a) v (_settings_cache a) (effects a).

Definition with_cache (j : Json) (a : App) : App :=
  mkApp (weapons a) (state a) (click_delay a) (click_rand a) (engine a) (click_thread a)
        (hotkeys a) (flash_hook_id a) (_shutting_down a) j (effects a).

Definition emit (ef : Effect) (a : App) : App :=
  mkApp (weapons a) (state a) (click_delay a) (click_rand a) (engine a) (click_thread a)
        (hotkeys a) (flash_hook_id a) (_shutting_down a) (_settings_cache a)
        (effects a ++ [ef]).

(** The [data] of [_persist_state]. *)
Definition settings_of (a : App) : Settings :=
  mkSettings (fire_enabled (state a)) (flash_mode (state a))
             (auto_click_enabled (state a)) (press_key_enabled (state a))
             (press_key_char (state a)) (click_delay a) (click_rand a)
             (key_bindings (state a))
             (match current_weapon (state a) with
              | Some w => Some (name w)
              | None => None
              end).

(** [_persist_state]. *)
Definition _persist_state (a : App) : App :=
  let data := settings_of a in
  emit (Persist data) (with_cache (to_json data) a).


(** [_disable_flash_hook]. *)
Definition _disable_flash_hook (a : App) : App :=
  if flash_hook_id a then with_flash_hook false a else a.


Section Engine.

Variable b : Backend.





End Engine.

(** [update_click_params]. *)
Definition update_click_params (base rand : Z) (a : App) : App :=
  let a := with_click (Z.max 1 base) (Z.max 0 rand) a in
  let c := click_thread a in
  let c := AutoClickThread.mkClicker
             (click_delay a) (click_rand a) (AutoClickThread._running c)
             (AutoClickThread._clicking c) (AutoClickThread._synthing c)
             (AutoClickThread._last_synth_ts c) (AutoClickThread._hold_shadow c)
             (AutoClickThread.events c) (AutoClickThread.logged c) in
  let a := with_click_thread c a in
  _persist_state (emit (Log (LogClickParams (click_delay a) (click_rand a))) a).

(** The loop of [current_weapon_index]: the first position, counted from
    [i], of a weapon called [n], or -1. *)
Fixpoint index_of_name (n : string) (ws : list WeaponConfig) (i : Z) : Z :=
  match ws with
  | [] => -1
  | w :: ws' => if String.eqb (name w) n then i else index_of_name n ws' (i + 1)
  end.

(** [current_weapon_index]. *)
Definition current_weapon_index (a : App) : Z :=
  match current_weapon (state a), weapons a with
  | None, _ => -1
  | _, [] => -1
  | Some cw, ws => index_of_name (name cw) ws 0
  end.

(** Line 865: [max(0, min(index, len(self.pm.weapons) - 1))]. *)
Definition clamp_index (index : Z) (ws : list WeaponConfig) : Z :=
  Z.max 0 (Z.min index (Z.of_nat (List.length ws) - 1)).

(** [switch_weapon]; the [IndexError] of [self.pm.weapons[index]] has no
    effect to show, the index being clamped first. *)
Definition switch_weapon (index : Z) (a : App) : App :=
  match weapons a with
  | [] => emit (Log LogNoWeapons) a
  | ws =>
      let index := clamp_index index ws in
      match nth_error ws (Z.to_nat index) with
      | None => a
      | Some w =>
          let a := with_state (with_current_weapon (Some w) (state a)) a in
          let a := emit (UiUpdateCurrentWeapon (name w)) a in
          let a := emit (UiHighlightWeapon index) a in
          let a := emit (Log (LogWeapon (name w))) a in
          _persist_state a
      end
  end.

(** [step_weapon]. *)
Definition step_weapon (delta : Z) (a : App) : App :=
  let idx := current_weapon_index a in
  if idx =? -1 then a else switch_weapon (idx + delta) a.

(** [refresh_plugins]; [loaded] is what [self.pm.load()] leaves in
    [self.pm.weapons]. *)
Definition refresh_plugins (loaded : list WeaponConfig) (a : App) : App :=
  let a := with_weapons loaded a in
  let names := map name loaded in
  let a :=
    match loaded with
    | [] => with_state (with_current_weapon None (state a)) a
    | w0 :: _ =>
        match current_weapon (state a) with
        | Some cw =>
            if existsb (String.eqb (name cw)) names then a
            else with_state (with_current_weapon (Some w0) (state a)) a
        | None => with_state (with_current_weapon (Some w0) (state a)) a
        end
    end in
  let a := emit (UiRefreshWeaponList names (current_weapon_index a)) a in
  let a := emit (UiUpdateCurrentWeapon
                   (match current_weapon (state a) with
                    | Some w => name w
                    | None => "None"%string
                    end)) a in
  _persist_state (emit (Log LogRefreshed) a).


Section Settings.

(** [int(s)] for a string [s]; [None] is a [ValueError]. *)
Variable int_of_str : string -> option Z.

(** [int(v)]; [None] is a [TypeError] or [ValueError]. *)
Definition int_of_json (v : Json) : option Z :=
  match v with
  | JBool x => Some (if x then 1 else 0)
  | JInt n => Some n
  | JFloat q => Some (py_int q)
  | JStr s => int_of_str s
  | JNull | JList _ | JObj _ => None
  end.

(** Lines 678-682: the saved bindings of known actions, normalized. *)
Definition load_key_bindings (saved : Json) (kb : list (string * string))
  : list (string * string) :=
  match saved with
  | JObj items =>
      fold_left
        (fun kb item =>
           match snd item with
           | JStr key =>
               if dict_mem (fst item) kb
               then dict_set (fst item) (py_lower (py_strip key)) kb else kb
           | _ => kb
           end) items kb
  | _ => kb
  end.

(** Lines 691-696: the first weapon of that name, if the name is a string. *)
Fixpoint find_weapon (n : Json) (ws : list WeaponConfig) : option WeaponConfig :=
  match ws with
  | [] => None
  | w :: ws' =>
      match n with
      | JStr s => if String.eqb (name w) s then Some w else find_weapon n ws'
      | _ => find_weapon n ws'
      end
  end.

(** Lines 670-676. *)
Definition load_flags (kv : list (string * Json)) (s : State) : State :=
  let flag := fun n default =>
                match dict_get n kv with
                | Some v => truthy v
                | None => default
                end in
  with_flags (flag "fire_enabled"%string (fire_enabled s))
             (flag "flash_mode"%string (flash_mode s))
             (flag "auto_click_enabled"%string (auto_click_enabled s))
             (flag "press_key_enabled"%string (press_key_enabled s)) s.

(** Lines 678-682. *)
Definition load_bindings (kv : list (string * Json)) (s : State) : State :=
  match dict_get "key_bindings" kv with
  | Some saved => with_key_bindings (load_key_bindings saved (key_bindings s)) s
  | None => s
  end.

(** Lines 687-689. *)
Definition load_press_key_char (kv : list (string * Json)) (s : State) : State :=
  match dict_get "press_key_char" kv with
  | Some (JStr c) =>
      if str_falsy c then s else with_press_key_char (py_lower (py_first c)) s
  | _ => s
  end.

(** Lines 691-696. *)
Definition load_current_weapon (kv : list (string * Json)) (ws : list WeaponConfig)
           (s : State) : State :=
  match dict_get "current_weapon" kv with
  | Some n =>
      if truthy n then
        match find_weapon n ws with
        | Some w => with_current_weapon (Some w) s
        | None => s
        end
      else s
  | None => s
  end.

(** [_load_settings]; [file] is what [json.loads] returned, [None] when
    there is no file or reading it raised.  The result is [None] when the
    method itself raises: the data is not a dict, or [int] fails. *)
Definition _load_settings (file : option Json) (a : App) : option App :=
  let data := match file with Some d => d | None => JObj [] end in
  let cache := if truthy data then data else JObj [] in
  match cache with
  | JObj kv =>
      let s := load_bindings kv (load_flags kv (state a)) in
      match (match dict_get "click_delay" kv with
             | Some v => int_of_json v
             | None => Some (click_delay a)
             end),
            (match dict_get "click_rand" kv with
             | Some v => int_of_json v
             | None => Some (click_rand a)
             end) with
      | Some d, Some r =>
          let s := load_current_weapon kv (weapons a) (load_press_key_char kv s) in
          Some (with_state s (with_click d r (with_cache cache a)))
      | _, _ => None
      end
  | _ => None
  end.

End Settings.

Section Run.

Variable b : Backend.
Variable int_of_str : string -> option Z.

(** [RecoilControllerApp.__init__]: [loaded] is what [self.pm.load()]
    leaves in [self.pm.weapons] and [file] what the settings file holds.
    The result is [None] when [_load_settings] raises, or a binding is
    missing on lines 717-720.  The Alt+arrow hotkeys and the mouse
    listener are objects of the libraries and have no field here. *)
Definition init (file : option Json) (loaded : list WeaponConfig) : option App :=
  let s := with_current_weapon (hd_error loaded) State_init in
  let a := mkApp loaded s 20 20 RecoilEngine.init (AutoClickThread.init 20 20)
                 HotkeyManager.init false false (JObj []) [] in
  match _load_settings int_of_str file a with
  | None => None
  | Some a =>
      let a := emit (UiRefreshWeaponList (map name (weapons a))
                                         (current_weapon_index a)) a in
      let a := emit (UiUpdateCurrentWeapon
                       (match current_weapon (state a) with
                        | Some w => name w
                        | None => "None"%string
                        end)) a in
      let a := emit (UiSetClickFields (click_delay a) (click_rand a)) a in
      let a := emit (UiSyncPressKeyChar (press_key_char (state a))) a in
      let kb := key_bindings (state a) in
      match dict_get "fire" kb, dict_get "press_key" kb,
            dict_get "flash" kb, dict_get "auto_click" kb with
      | Some kfire, Some kpress, Some kflash, Some kauto =>
          let h := HotkeyManager.init in
          let h := HotkeyManager.register "fire" (Some kfire) ToggleFire h in
          let h := HotkeyManager.register "press_key" (Some kpress) TogglePressKey h in
          let h := HotkeyManager.register "flash" (Some kflash) ToggleFlash h in
          let h := HotkeyManager.register "auto_click" (Some kauto) ToggleAuto h in
          let a := with_hotkeys h a in
          let a := with_flash_hook false a in
          let e := RecoilEngine.set_trigger_key
                     b (Some (press_key_char (state a))) RecoilEngine.init in
          let e := RecoilEngine.log RecoilEngine.LogStarted
                                    (RecoilEngine.set_running true e) in
          let a := with_engine e a in
          let a := with_click_thread
                     (AutoClickThread.init (click_delay a) (click_rand a)) a in
          Some (with_shutting_down false a)
      | _, _, _, _ => None
      end
  end.

(** [shutdown]; the Alt+arrow hotkeys have no field here, and the
    engine's [stop] is taken with its loop making no step meanwhile. *)
Definition shutdown (a : App) : App :=
  if _shutting_down a then a
  else
    let a := with_shutting_down true a in
    let a := emit (Log LogExiting) a in
    let a := with_hotkeys (HotkeyManager.shutdown (hotkeys a)) a in
    let a := _disable_flash_hook a in
    let a := emit StopMouseListener a in
    let a := with_click_thread (AutoClickThread.stop (click_thread a)) a in
    let a := with_engine (RecoilEngine.stop_uninterrupted b (engine a)) a in
    let a := emit StopAllAudio a in
    emit UiClose a.



End Run.










(** A start with two weapons and no settings file, on a backend that never
    raises. *)
Definition example_weapons : list WeaponConfig :=
  [WeaponConfig_named "AK"; WeaponConfig_named "M4"].

Definition example_app : App :=
  match init quiet_backend (fun _ => None) None example_weapons with
  | Some a => a
  | None => mkApp [] State_init 20 20 RecoilEngine.init (AutoClickThread.init 20 20)
                  HotkeyManager.init false false (JObj []) []
  end.

End App.

(** * Properties *)

(** ** Arithmetic helpers *)

Lemma Qltb_lt (x y : Q) : Qltb x y = true <-> (x < y)%Q.
Proof.
  unfold Qltb. rewrite negb_true_iff.
  destruct (Qle_bool y x) eqn:E.
  - apply Qle_bool_iff in E. split; [discriminate|].
    intros H. exfalso. apply (Qlt_not_le _ _ H E).
  - split; [intros _|reflexivity].
    apply Qnot_le_lt. intros H. apply Qle_bool_iff in H. congruence.
Qed.

Lemma Qltb_ge (x y : Q) : Qltb x y = false <-> (y <= x)%Q.
Proof.
  unfold Qltb. rewrite negb_false_iff. apply Qle_bool_iff.
Qed.

(** ** The synth guard *)

Section SynthGuardFacts.
Import SynthGuard.

Lemma begins_app (a b : list call) : begins (a ++ b) = begins a + begins b.
Proof. unfold begins. rewrite filter_app, length_app. lia. Qed.

Lemma ends_app (a b : list call) : ends (a ++ b) = ends a + ends b.
Proof. unfold ends. rewrite filter_app, length_app. lia. Qed.

Lemma step_nonneg (g : Z) (c : call) : 0 <= g -> 0 <= step g c.
Proof.
  destruct c; unfold step, begin_synth, end_synth; intros H.
  - lia.
  - destruct (g >? 0) eqn:E; lia.
Qed.

Lemma depths_nonneg (cs : list call) :
  forall g, 0 <= g -> Forall (fun d => 0 <= d) (depths g cs).
Proof.
  induction cs as [|c cs IH]; intros g Hg; cbn [depths].
  - constructor; [exact Hg|constructor].
  - constructor; [exact Hg|]. apply IH, step_nonneg, Hg.
Qed.

Lemma matched_tail (c : call) (cs : list call) :
  all_begins_matched (c :: cs) -> all_begins_matched cs.
Proof. intros H k. exact (H (S k)). Qed.

(** The clamped counter never ends above what is still unmatched. *)
Lemma run_bounded (cs : list call) :
  forall g, 0 <= g -> all_begins_matched cs ->
            run g cs <= Z.max 0 (g + begins cs - ends cs).
Proof.
  induction cs as [|c cs IH]; intros g Hg Hm.
  - cbn. lia.
  - pose proof (matched_tail _ _ Hm) as Hm'.
    pose proof (Hm' 0%nat) as Hcs. cbn [skipn] in Hcs.
    change (run g (c :: cs)) with (run (step g c) cs).
    specialize (IH (step g c) (step_nonneg g c Hg) Hm').
    change (c :: cs) with ([c] ++ cs). rewrite begins_app, ends_app.
    destruct c; cbn [step] in *; unfold begin_synth, end_synth in *.
    + change (begins [Begin]) with 1. change (ends [Begin]) with 0. lia.
    + change (begins [End]) with 0. change (ends [End]) with 1.
      destruct (g >? 0) eqn:E; lia.
Qed.

Lemma run_nonneg (cs : list call) : forall g, 0 <= g -> 0 <= run g cs.
Proof.
  induction cs as [|c cs IH]; intros g Hg; [exact Hg|].
  change (run g (c :: cs)) with (run (step g c) cs).
  apply IH, step_nonneg, Hg.
Qed.

Lemma scoped_balanced (cs : list call) : scoped cs -> begins cs = ends cs.
Proof.
  induction 1 as [|cs _ IH|cs1 cs2 _ IH1 _ IH2].
  - reflexivity.
  - change (Begin :: cs ++ [End]) with ([Begin] ++ cs ++ [End]).
    rewrite !begins_app, !ends_app, IH.
    change (begins [Begin]) with 1. change (ends [Begin]) with 0.
    change (begins [End]) with 0. change (ends [End]) with 1. lia.
  - rewrite begins_app, ends_app. lia.
Qed.

Lemma matched_app (a b : list call) :
  all_begins_matched a -> all_begins_matched b -> all_begins_matched (a ++ b).
Proof.
  intros Ha Hb k. rewrite skipn_app, begins_app, ends_app.
  specialize (Ha k). specialize (Hb (k - List.length a)%nat). lia.
Qed.

(** Nested acquisition is one way of matching every [Begin]. *)
Lemma scoped_matched (cs : list call) : scoped cs -> all_begins_matched cs.
Proof.
  induction 1 as [|cs Hs IH|cs1 cs2 _ IH1 _ IH2].
  - intros k. rewrite skipn_nil. reflexivity.
  - intros [|k].
    + cbn [skipn].
      change (Begin :: cs ++ [End]) with ([Begin] ++ cs ++ [End]).
      rewrite !begins_app, !ends_app, (scoped_balanced cs Hs).
      change (begins [Begin]) with 1. change (ends [Begin]) with 0.
      change (begins [End]) with 0. change (ends [End]) with 1. lia.
    + cbn [skipn]. apply matched_app; [exact IH|].
      intros [|[|j]]; cbn; try rewrite skipn_nil; cbn; lia.
  - apply matched_app; assumption.
Qed.

End SynthGuardFacts.

(** C4. [begin_synth] adds one to the depth; [end_synth] takes one off but
    stops at zero; [is_synth] holds exactly when the depth is positive; and
    over any sequence of calls from the initial guard the depth is never
    negative, and once every [Begin] has a later [End] of its own,
    [is_synth] is false at the end. *)
Theorem synth_guard_balance (cs : list SynthGuard.call)
        (Hmatched : SynthGuard.all_begins_matched cs) :
  (forall g, SynthGuard.begin_synth g = g + 1)
  /\ (forall g, 0 <= g -> SynthGuard.end_synth g = Z.max 0 (g - 1))
  /\ (forall g, SynthGuard.is_synth g = true <-> 0 < g)
  /\ Forall (fun d => 0 <= d) (SynthGuard.depths SynthGuard.init cs)
  /\ SynthGuard.run SynthGuard.init cs = 0
  /\ SynthGuard.is_synth (SynthGuard.run SynthGuard.init cs) = false.
Proof.
  assert (Hrun : SynthGuard.run SynthGuard.init cs = 0).
  { pose proof (run_bounded cs 0 (Z.le_refl 0) Hmatched) as Hub.
    pose proof (run_nonneg cs 0 (Z.le_refl 0)) as Hlb.
    pose proof (Hmatched 0%nat) as H0. cbn [skipn] in H0.
    unfold SynthGuard.init. lia. }
  split; [reflexivity|].
  split; [intros g Hg; unfold SynthGuard.end_synth; destruct (g >? 0) eqn:E; lia|].
  split; [intros g; unfold SynthGuard.is_synth; lia|].
  split; [apply depths_nonneg; unfold SynthGuard.init; lia|].
  split; [exact Hrun|].
  rewrite Hrun. reflexivity.
Qed.

Lemma synth_guard_balance_witness :
  let cs := [SynthGuard.End; SynthGuard.Begin; SynthGuard.Begin;
             SynthGuard.End; SynthGuard.End] in
  SynthGuard.all_begins_matched cs
  /\ SynthGuard.is_synth (SynthGuard.run SynthGuard.init cs) = false.
Proof.
  intros cs.
  assert (H : SynthGuard.all_begins_matched cs).
  { intros k. do 6 (destruct k as [|k]; [vm_compute; discriminate|]).
    vm_compute. discriminate. }
  split; [exact H|].
  apply (synth_guard_balance cs H).
Defined.

(** ** The auto-click loop *)

Section AutoClickFacts.
Import AutoClickThread.

Lemma update_shadow_fields (u p : bool) (t : Q) (c : Clicker) :
  let c' := update_shadow u p t c in
  _delay_ms c' = _delay_ms c /\ events c' = events c
  /\ _synthing c' = _synthing c /\ _last_synth_ts c' = _last_synth_ts c.
Proof.
  unfold update_shadow.
  destruct u; [cbn; auto|].
  destruct (negb p && negb (_synthing c) && Qltb (3 # 100) (t - _last_synth_ts c));
    cbn; auto.
Qed.

(** The effective hold of an iteration: line 369. *)
Lemma run_body_clicks (inp : ClickInput) (c : Clicker) (g : Z) :
  let c1 := update_shadow (get_bool (st_left_hold inp) false)
                          (_physical_left_pressed (async_key_state inp)) (now inp) c in
  let go := get_bool (st_auto_click_enabled inp) false
            && (_physical_left_pressed (async_key_state inp) || _hold_shadow c1) in
  let '(c', _, sleep) := run_body inp (c, g) in
  _hold_shadow c' = _hold_shadow c1
  /\ events c' = events c ++ (if go then [LeftDown; LeftUp] else [])
  /\ sleep = if go then (inject_Z (Z.max 1 (_delay_ms c + jitter inp)) / 1000)%Q
             else 1 # 100.
Proof.
  intros c1 go. unfold run_body. fold c1. fold go.
  destruct (update_shadow_fields (get_bool (st_left_hold inp) false)
              (_physical_left_pressed (async_key_state inp)) (now inp) c)
    as (Hd & He & _). fold c1 in Hd, He.
  destruct go.
  - destruct (negb (_clicking c1)); cbn;
      rewrite <- app_assoc, He; unfold click_delay; cbn; rewrite Hd; auto.
  - destruct (_clicking c1); cbn; rewrite app_nil_r; auto.
Qed.

End AutoClickFacts.

(** C8. Whenever an iteration of the auto-click loop clicks, it then sleeps
    for [max(1, _delay_ms + r)] milliseconds, [r] being what
    [random.randint(-_rand_ms, _rand_ms)] returned; with a delay of 20 and
    a jitter of 20 that is between 1 and 40 milliseconds. *)
Theorem inter_click_sleep (inp : AutoClickThread.ClickInput)
        (c : AutoClickThread.Clicker) (g : Z)
        (Hr : AutoClickThread.randint_returns
                (- AutoClickThread._rand_ms c) (AutoClickThread._rand_ms c)
                (AutoClickThread.jitter inp))
        (Hclick : AutoClickThread.events (fst (fst (AutoClickThread.run_body inp (c, g))))
                  <> AutoClickThread.events c) :
  let sleep_s := snd (AutoClickThread.run_body inp (c, g)) in
  let ms := Z.max 1 (AutoClickThread._delay_ms c + AutoClickThread.jitter inp) in
  sleep_s = (inject_Z ms / 1000)%Q
  /\ ms = AutoClickThread.click_delay c (AutoClickThread.jitter inp)
  /\ (AutoClickThread._delay_ms c = 20 -> AutoClickThread._rand_ms c = 20 ->
      1 <= ms <= 40 /\ (1 # 1000 <= sleep_s)%Q /\ (sleep_s <= 40 # 1000)%Q).
Proof.
  intros sleep_s ms. subst sleep_s.
  pose proof (run_body_clicks inp c g) as H. cbv zeta in H.
  destruct (AutoClickThread.run_body inp (c, g)) as [[c' g'] sleep].
  cbn [fst snd] in *. destruct H as (_ & He & Hs).
  match type of He with
  | context [if ?go then _ else _] => destruct go
  end.
  2:{ rewrite app_nil_r in He. contradiction. }
  split; [exact Hs|]. split; [reflexivity|].
  intros Hd Hj. unfold AutoClickThread.randint_returns in Hr.
  rewrite Hj in Hr. assert (Hms : 1 <= ms <= 40) by (subst ms; lia).
  split; [exact Hms|]. rewrite Hs. fold ms.
  unfold Qle, Qdiv, Qmult, Qinv, inject_Z; cbn. lia.
Qed.

Lemma inter_click_sleep_witness :
  snd (AutoClickThread.run_body
         (AutoClickThread.mkClickInput (Some true) (Some true) (Some 0) 1 2 (-20))
         (AutoClickThread.init 20 20, 0))
  = (inject_Z 1 / 1000)%Q.
Proof.
  apply (inter_click_sleep
           (AutoClickThread.mkClickInput (Some true) (Some true) (Some 0) 1 2 (-20))
           (AutoClickThread.init 20 20) 0).
  - unfold AutoClickThread.randint_returns. cbn. lia.
  - vm_compute. discriminate.
Defined.



(** ** The engine, one thread at a time *)

Section EngineFacts.
Import RecoilEngine.



Lemma release_calls (b : Backend) (e : Engine) :
  calls (release_trigger b e)
  = calls e ++ (if _trigger_held e then [KeyUp (_trigger_key e)] else []).
Proof.
  unfold release_trigger. destruct (_trigger_held e); cbn.
  - destruct (raises b (KeyUp (_trigger_key e))); reflexivity.
  - rewrite app_nil_r. reflexivity.
Qed.

Lemma ensure_running (b : Backend) (e : Engine) :
  _running (_ensure_trigger_down b e) = _running e.
Proof.
  unfold _ensure_trigger_down. destruct (_trigger_held e); [reflexivity|].
  destruct (raises b (KeyDown (_trigger_key e))); reflexivity.
Qed.

Lemma release_running (b : Backend) (e : Engine) :
  _running (release_trigger b e) = _running e.
Proof.
  unfold release_trigger. destruct (_trigger_held e); cbn; [|reflexivity].
  destruct (raises b (KeyUp (_trigger_key e))); reflexivity.
Qed.

Lemma release_held (b : Backend) (e : Engine) :
  _trigger_held (release_trigger b e) = false.
Proof.
  unfold release_trigger. destruct (_trigger_held e) eqn:E; cbn; [|exact E].
  destruct (raises b (KeyUp (_trigger_key e))); reflexivity.
Qed.

Lemma release_key_kept (b : Backend) (e : Engine) :
  _trigger_key (release_trigger b e) = _trigger_key e.
Proof.
  unfold release_trigger. destruct (_trigger_held e); cbn; [|reflexivity].
  destruct (raises b (KeyUp (_trigger_key e))); reflexivity.
Qed.

Lemma ensure_key (b : Backend) (e : Engine) :
  _trigger_key (_ensure_trigger_down b e) = _trigger_key e.
Proof.
  unfold _ensure_trigger_down. destruct (_trigger_held e); [reflexivity|].
  destruct (raises b (KeyDown (_trigger_key e))); reflexivity.
Qed.


Lemma poll_engine (inp : TickInput) (e : Engine) :
  calls (fst (poll inp e)) = calls e
  /\ _running (fst (poll inp e)) = _running e
  /\ _trigger_held (fst (poll inp e)) = _trigger_held e
  /\ _trigger_key (fst (poll inp e)) = _trigger_key e.
Proof.
  unfold poll. destruct (polled inp); cbn; auto.
Qed.

(** Lines 240-271 issue exactly one call, the mouse move. *)
Lemma pull_and_move_spec (b : Backend) (inp : TickInput) (fr : Frame)
      (e : Engine) (l : Locals) :
  let elapsed := (t_now inp - start_time l)%Q in
  let pull := compute_pull fr elapsed (count l + 1) in
  let e' := fst (pull_and_move b inp fr (e, l)) in
  calls e' = calls e ++ [MoveMouse 0 (py_int (fst pull))]
  /\ snd (pull_and_move b inp fr (e, l))
     = mkLocals (count l + 1) (shooting l) (start_time l)
  /\ _running e' = _running e
  /\ (snd pull = true -> In LogPullError (logged e')).
Proof.
  intros elapsed pull. unfold pull_and_move. cbn [count start_time shooting].
  fold elapsed. fold pull. destruct pull as [p failed]. cbn [fst snd].
  destruct failed, (raises b (MoveMouse 0 (py_int p))),
    ((count l + 1) mod 10 =? 0); cbn;
    (split; [reflexivity|split; [reflexivity|split; [reflexivity|]]]);
    intros H; try discriminate;
    repeat (rewrite in_app_iff); cbn; tauto.
Qed.


End EngineFacts.


(** The profile (2.0, 0.5, 1.6, 200.0) in double precision: the sum
    [2.0 + 20 / 200.0] rounds to the double that the literal 2.1 denotes,
    and past the initial duration the pull is the double 1.6. *)
Lemma builtin_pull_binary64 :
  Binary64.builtin_pull (Binary64.of_int 2) Binary64.d0_5 Binary64.d1_6
                        (Binary64.of_int 200) Binary64.d0_1 20 = Binary64.d2_1
  /\ Binary64.builtin_pull (Binary64.of_int 2) Binary64.d0_5 Binary64.d1_6
                           (Binary64.of_int 200) Binary64.d0_6 20 = Binary64.d1_6.
Proof. split; vm_compute; reflexivity. Qed.

(** C2. Without a custom function and with a non-zero [acceleration], the
    pull of a tick is [defaultPull + count / acceleration] while
    [elapsed < initialDuration] and [steadyPull] from then on; the profile
    (2.0, 0.5, 1.6, 8, 200.0) gives 2.1 at 0.1 s and count 20, and 1.6 at
    0.6 s; for a positive [acceleration] the ramp does not decrease as the
    count grows. *)
Theorem builtin_pull_curve (w : WeaponConfig) (sf pke : bool) (elapsed : Q) (n : Z)
        (Hacc : ~ (acceleration w == 0)%Q) :
  let pull := fun c t k => fst (RecoilEngine.compute_pull
                                  (RecoilEngine.mkFrame sf pke c None) t k) in
  let a := mkWeaponConfig "A" 2 (1 # 2) (16 # 10) 8 200 in
  ((elapsed < initialDuration w)%Q ->
   pull w elapsed n = (defaultPull w + inject_Z n / acceleration w)%Q)
  /\ ((initialDuration w <= elapsed)%Q -> pull w elapsed n = steadyPull w)
  /\ (pull a (1 # 10) 20%Z == 21 # 10)%Q
  /\ (pull a (6 # 10) 20%Z == 16 # 10)%Q
  /\ ((0 < acceleration w)%Q -> (elapsed < initialDuration w)%Q ->
      forall m, n <= m -> (pull w elapsed n <= pull w elapsed m)%Q).
Proof.
  intros pull a.
  assert (Hz : Qeq_bool (acceleration w) 0 = false).
  { destruct (Qeq_bool (acceleration w) 0) eqn:E; [|reflexivity].
    apply Qeq_bool_iff in E. contradiction. }
  assert (Hramp : forall k, (elapsed < initialDuration w)%Q ->
            pull w elapsed k = (defaultPull w + inject_Z k / acceleration w)%Q).
  { intros k Hlt. apply Qltb_lt in Hlt. subst pull.
    unfold RecoilEngine.compute_pull, RecoilEngine.builtin_pull, py_float.
    cbn [RecoilEngine.calc RecoilEngine.cfg]. rewrite Hlt, Hz. reflexivity. }
  split; [apply Hramp|].
  split.
  { intros Hge. apply Qltb_ge in Hge. subst pull.
    unfold RecoilEngine.compute_pull, RecoilEngine.builtin_pull.
    cbn [RecoilEngine.calc RecoilEngine.cfg]. rewrite Hge. reflexivity. }
  split; [vm_compute; reflexivity|].
  split; [vm_compute; reflexivity|].
  intros Hpos Hlt m Hnm. rewrite !Hramp by exact Hlt.
  apply Qplus_le_r. unfold Qdiv. apply Qmult_le_compat_r.
  - rewrite <- Zle_Qle. exact Hnm.
  - apply Qinv_le_0_compat, Qlt_le_weak, Hpos.
Qed.

Lemma builtin_pull_curve_witness :
  (fst (RecoilEngine.compute_pull
          (RecoilEngine.mkFrame true true (WeaponConfig_named "Default") None)
          (1 # 10) 20)
   <= fst (RecoilEngine.compute_pull
             (RecoilEngine.mkFrame true true (WeaponConfig_named "Default") None)
             (1 # 10) 21))%Q.
Proof.
  assert (Hacc : ~ (acceleration (WeaponConfig_named "Default") == 0)%Q).
  { intros H. vm_compute in H. discriminate H. }
  apply (builtin_pull_curve (WeaponConfig_named "Default") true true (1 # 10) 20 Hacc).
  - reflexivity.
  - reflexivity.
  - lia.
Defined.






(** ** The trigger key *)

Section TriggerKeyFacts.
Import RecoilEngine.




End TriggerKeyFacts.







(** ** The threads *)

Section InterleavingFacts.
Import RecoilEngine Interleaving.

Variable b : Backend.
Variable w : TickInput.

Lemma runs_to_refl (x : Config) : runs_to b w x x.
Proof. exists 0%nat. reflexivity. Qed.

Lemma runs_to_trans (x y z : Config) :
  runs_to b w x y -> runs_to b w y z -> runs_to b w x z.
Proof.
  intros [n Hn] [p Hp]. exists (n + p)%nat. intros m.
  rewrite <- Nat.add_assoc, Hn. apply Hp.
Qed.

(** One step, for any step but the loop test. *)
Lemma runs_to_step (o : Op) (e : Engine) (l : Locals) (k : list Op) :
  o <> LoopTest ->
  runs_to b w (e, l, o :: k)
          (fst (fst (exec b w o e l)), snd (fst (exec b w o e l)),
           snd (exec b w o e l) ++ k).
Proof.
  intros Ho. exists 1%nat. intros m. cbn [Nat.add run_alone].
  destruct (exec b w o e l) as [[e' l'] pre]. cbn [fst snd].
  destruct o; try reflexivity. contradiction.
Qed.

(** The steps of [_ensure_trigger_down], uninterrupted, are the method. *)
Lemma ensure_runs (e : Engine) (l : Locals) (k : list Op) :
  runs_to b w (e, l, EnsureTest :: k) (_ensure_trigger_down b e, l, k).
Proof.
  eapply runs_to_trans; [apply runs_to_step; discriminate|].
  unfold _ensure_trigger_down. cbn [exec fst snd].
  destruct (_trigger_held e); [apply runs_to_refl|]. cbn [app].
  eapply runs_to_trans; [apply runs_to_step; discriminate|]. cbn [exec].
  destruct (raises b (KeyDown (_trigger_key e))); cbn [fst snd app].
  - apply runs_to_refl.
  - eapply runs_to_trans; [apply runs_to_step; discriminate|]. apply runs_to_refl.
Qed.

(** The steps of [release_trigger], uninterrupted, are the method. *)
Lemma release_runs (e : Engine) (l : Locals) (k : list Op) :
  runs_to b w (e, l, ReleaseTest :: k) (release_trigger b e, l, k).
Proof.
  eapply runs_to_trans; [apply runs_to_step; discriminate|].
  unfold release_trigger. cbn [exec fst snd].
  destruct (_trigger_held e); cbn [negb app]; [|apply runs_to_refl].
  eapply runs_to_trans; [apply runs_to_step; discriminate|]. cbn [exec fst snd app].
  eapply runs_to_trans; [apply runs_to_step; discriminate|]. apply runs_to_refl.
Qed.

(** The steps of [set_trigger_key], uninterrupted, are the method. *)
Lemma set_trigger_key_runs (key : option string) (e : Engine) (l : Locals)
      (k : list Op) :
  runs_to b w (e, l, SetKey key :: k) (set_trigger_key b key e, l, k).
Proof.
  eapply runs_to_trans; [apply runs_to_step; discriminate|].
  unfold set_trigger_key. cbn [exec].
  destruct (String.eqb (normalize_key key) (_trigger_key e));
    cbn [fst snd app]; [apply runs_to_refl|].
  destruct (_trigger_held e); cbn [app].
  - eapply runs_to_trans; [apply release_runs|].
    eapply runs_to_trans; [apply runs_to_step; discriminate|]. cbn [exec fst snd app].
    eapply runs_to_trans; [apply ensure_runs|].
    eapply runs_to_trans; [apply runs_to_step; discriminate|]. apply runs_to_refl.
  - eapply runs_to_trans; [apply runs_to_step; discriminate|]. cbn [exec fst snd app].
    eapply runs_to_trans; [apply runs_to_step; discriminate|]. apply runs_to_refl.
Qed.

(** The steps of one iteration, uninterrupted and with the outside world
    unchanged, are [loop_body], and lead back to the loop test. *)
Lemma loop_body_runs (e : Engine) (l : Locals) (k : list Op) :
  runs_to b w (e, l, LoopPoll :: k)
          (fst (loop_body b w (e, l)), snd (loop_body b w (e, l)), LoopTest :: k).
Proof.
  eapply runs_to_trans; [apply runs_to_step; discriminate|].
  unfold loop_body. cbn [exec].
  destruct (poll w e) as [e1 fr]. cbn [fst snd app].
  eapply runs_to_trans; [apply runs_to_step; discriminate|]. cbn [exec fst snd].
  set (e2 := if negb (press_key_enabled fr) && _trigger_held e1
             then release_trigger b e1 else e1).
  apply runs_to_trans with (y := (e2, l, LoopBegin fr :: k)).
  { subst e2. destruct (negb (press_key_enabled fr) && _trigger_held e1); cbn [app].
    - apply release_runs.
    - apply runs_to_refl. }
  eapply runs_to_trans; [apply runs_to_step; discriminate|]. cbn [exec].
  set (begun := if should_fire fr && negb (shooting l)
                then (log LogShootingStart
                          (if press_key_enabled fr
                           then _ensure_trigger_down b e2 else e2),
                      mkLocals 0 true (t_start w))
                else (e2, l)).
  apply runs_to_trans with (y := (fst begun, snd begun, LoopFire fr :: k)).
  { subst begun. destruct (should_fire fr && negb (shooting l)); cbn [fst snd app].
    - destruct (press_key_enabled fr); cbn [app].
      + eapply runs_to_trans; [apply ensure_runs|].
        eapply runs_to_trans; [apply runs_to_step; discriminate|]. apply runs_to_refl.
      + eapply runs_to_trans; [apply runs_to_step; discriminate|]. apply runs_to_refl.
    - apply runs_to_refl. }
  destruct begun as [e3 l3]. cbn [fst snd].
  eapply runs_to_trans; [apply runs_to_step; discriminate|]. cbn [exec].
  set (fired := if shooting l3 && should_fire fr
                then pull_and_move b w fr
                       (if press_key_enabled fr
                        then _ensure_trigger_down b e3 else release_trigger b e3, l3)
                else (e3, l3)).
  apply runs_to_trans with (y := (fst fired, snd fired, LoopEnd fr :: k)).
  { subst fired. destruct (shooting l3 && should_fire fr); cbn [fst snd app].
    - destruct (press_key_enabled fr).
      + eapply runs_to_trans; [apply ensure_runs|].
        eapply runs_to_trans; [apply runs_to_step; discriminate|]. cbn [exec].
        destruct (pull_and_move b w fr (_ensure_trigger_down b e3, l3)).
        apply runs_to_refl.
      + eapply runs_to_trans; [apply release_runs|].
        eapply runs_to_trans; [apply runs_to_step; discriminate|]. cbn [exec].
        destruct (pull_and_move b w fr (release_trigger b e3, l3)).
        apply runs_to_refl.
    - apply runs_to_refl. }
  destruct fired as [e4 l4]. cbn [fst snd].
  eapply runs_to_trans; [apply runs_to_step; discriminate|]. cbn [exec].
  destruct (shooting l4 && negb (should_fire fr)); cbn [fst snd app].
  - eapply runs_to_trans; [apply release_runs|].
    eapply runs_to_trans; [apply runs_to_step; discriminate|]. apply runs_to_refl.
  - apply runs_to_refl.
Qed.

End InterleavingFacts.

(** Read as runs of the machine: left alone, the steps of each method end
    in what the method computes. *)
Lemma methods_alone (b : Backend) (w : RecoilEngine.TickInput)
      (e : RecoilEngine.Engine) (l : RecoilEngine.Locals) (key : option string) :
  (exists n, Interleaving.run_alone b w n (e, l, [Interleaving.EnsureTest])
             = (RecoilEngine._ensure_trigger_down b e, l, []))
  /\ (exists n, Interleaving.run_alone b w n (e, l, [Interleaving.ReleaseTest])
                = (RecoilEngine.release_trigger b e, l, []))
  /\ (exists n, Interleaving.run_alone b w n (e, l, [Interleaving.SetKey key])
                = (RecoilEngine.set_trigger_key b key e, l, []))
  /\ (exists n, Interleaving.run_alone b w n (e, l, [Interleaving.LoopPoll])
                = (fst (RecoilEngine.loop_body b w (e, l)),
                   snd (RecoilEngine.loop_body b w (e, l)),
                   [Interleaving.LoopTest])).
Proof.
  repeat split.
  - destruct (ensure_runs b w e l []) as [n Hn]. exists n.
    specialize (Hn 0%nat). rewrite Nat.add_0_r in Hn. exact Hn.
  - destruct (release_runs b w e l []) as [n Hn]. exists n.
    specialize (Hn 0%nat). rewrite Nat.add_0_r in Hn. exact Hn.
  - destruct (set_trigger_key_runs b w key e l []) as [n Hn]. exists n.
    specialize (Hn 0%nat). rewrite Nat.add_0_r in Hn. exact Hn.
  - destruct (loop_body_runs b w e l []) as [n Hn]. exists n.
    specialize (Hn 0%nat). rewrite Nat.add_0_r in Hn. exact Hn.
Qed.

(** ** The held flag and the keys, one method at a time *)

Section Consistency.
Import RecoilEngine.

Variable b : Backend.
Hypothesis Hquiet : forall c, raises b c = false.

Lemma key_down_after_app (k : string) (cs1 cs2 : list BackendCall) :
  forall d, key_down_after k d (cs1 ++ cs2)
            = key_down_after k (key_down_after k d cs1) cs2.
Proof.
  induction cs1 as [|c cs1 IH]; intros d; [reflexivity|].
  destruct c; cbn [app key_down_after]; apply IH.
Qed.

Lemma consistent_init : consistent init.
Proof. intros k. reflexivity. Qed.

Lemma consistent_log (m : LogMsg) (e : Engine) : consistent e -> consistent (log m e).
Proof. intros H k. exact (H k). Qed.

Lemma consistent_set_running (v : bool) (e : Engine) :
  consistent e -> consistent (set_running v e).
Proof. intros H k. exact (H k). Qed.

Lemma consistent_ensure (e : Engine) :
  consistent e -> consistent (_ensure_trigger_down b e).
Proof.
  intros H. unfold _ensure_trigger_down.
  destruct (_trigger_held e) eqn:Eh; [exact H|].
  rewrite Hquiet. intros k. specialize (H k). rewrite Eh in H.
  cbn [calls set_held issue _trigger_held _trigger_key].
  unfold key_is_down in *. rewrite key_down_after_app, H. cbn.
  rewrite (String.eqb_sym k). destruct (String.eqb (_trigger_key e) k); reflexivity.
Qed.

Lemma consistent_release (e : Engine) :
  consistent e -> consistent (release_trigger b e).
Proof.
  intros H. unfold release_trigger.
  destruct (_trigger_held e) eqn:Eh; cbn [negb]; [|exact H].
  rewrite Hquiet. intros k. specialize (H k). rewrite Eh in H.
  cbn [calls set_held issue _trigger_held _trigger_key].
  unfold key_is_down in *. rewrite key_down_after_app, H. cbn.
  rewrite (String.eqb_sym k). destruct (String.eqb (_trigger_key e) k); reflexivity.
Qed.

Lemma consistent_set_trigger_key (key : option string) (e : Engine) :
  consistent e -> consistent (set_trigger_key b key e).
Proof.
  intros H. unfold set_trigger_key.
  destruct (String.eqb (normalize_key key) (_trigger_key e)); [exact H|].
  apply consistent_log.
  destruct (_trigger_held e) eqn:Eh.
  - apply consistent_ensure.
    pose proof (consistent_release e H) as Hr. pose proof (release_held b e) as Hh.
    intros k. specialize (Hr k). rewrite Hh in Hr.
    cbn [calls set_key _trigger_held _trigger_key]. rewrite Hh. exact Hr.
  - intros k. specialize (H k). rewrite Eh in H.
    cbn [calls set_key _trigger_held _trigger_key]. rewrite Eh. exact H.
Qed.

Lemma consistent_pull_and_move (inp : TickInput) (fr : Frame) (e : Engine) (l : Locals) :
  consistent e -> consistent (fst (pull_and_move b inp fr (e, l))).
Proof.
  intros H. unfold pull_and_move.
  destruct (compute_pull fr _ _) as [pull failed]. rewrite Hquiet.
  match goal with
  | |- context [if ?c then log ?m ?x else ?x] =>
      assert (Hx : consistent x); [|destruct c; [apply consistent_log|]; exact Hx]
  end.
  assert (He : consistent (if failed then log LogPullError e else e))
    by (destruct failed; [apply consistent_log|]; exact H).
  intros k. specialize (He k). cbn [calls issue _trigger_held _trigger_key].
  unfold key_is_down in *. rewrite key_down_after_app. exact He.
Qed.

Lemma consistent_loop_body (inp : TickInput) (e : Engine) (l : Locals) :
  consistent e -> consistent (fst (loop_body b inp (e, l))).
Proof.
  intros H. unfold loop_body.
  assert (H1 : consistent (fst (poll inp e))).
  { unfold poll. destruct (polled inp); [exact H|apply consistent_log, H]. }
  destruct (poll inp e) as [e1 fr]. cbn [fst] in H1.
  set (e2 := if negb (press_key_enabled fr) && _trigger_held e1
             then release_trigger b e1 else e1).
  assert (H2 : consistent e2).
  { subst e2. destruct (negb (press_key_enabled fr) && _trigger_held e1);
      [apply consistent_release|]; exact H1. }
  clearbody e2.
  match goal with
  | |- context [let '(e0, l0) := ?begun in _] =>
      assert (H3 : consistent (fst begun)); [|destruct begun as [e3 l3]]
  end.
  { destruct (should_fire fr && negb (shooting l)); [|exact H2].
    apply consistent_log. destruct (press_key_enabled fr);
      [apply consistent_ensure|]; exact H2. }
  cbn [fst] in H3.
  match goal with
  | |- context [let '(e0, l0) := ?fired in _] =>
      assert (H4 : consistent (fst fired)); [|destruct fired as [e4 l4]]
  end.
  { destruct (shooting l3 && should_fire fr); [|exact H3].
    apply consistent_pull_and_move.
    destruct (press_key_enabled fr);
      [apply consistent_ensure|apply consistent_release]; exact H3. }
  cbn [fst] in H4.
  destruct (shooting l4 && negb (should_fire fr)); [|exact H4].
  apply consistent_log, consistent_release, H4.
Qed.

(** When the loop leaves through line 287, nothing is held. *)
Lemma loop_exit_releases (inps : list TickInput) :
  forall e l e',
    consistent e -> _loop b inps (e, l) = Some e' ->
    consistent e' /\ _trigger_held e' = false.
Proof.
  induction inps as [|inp inps IH]; intros e l e' H Hl; cbn [_loop fst] in Hl.
  - destruct (_running e); [discriminate|]. injection Hl as <-.
    split; [apply consistent_release, H|apply release_held].
  - destruct (_running e).
    + pose proof (consistent_loop_body inp e l H) as Hb.
      destruct (loop_body b inp (e, l)) as [e1 l1]. exact (IH e1 l1 e' Hb Hl).
    + injection Hl as <-.
      split; [apply consistent_release, H|apply release_held].
Qed.

(** With no other thread running in the middle of a method, [stop] leaves
    the flag cleared and every key up. *)
Lemma stop_uninterrupted_releases (e : Engine) :
  consistent e ->
  _trigger_held (stop_uninterrupted b e) = false
  /\ forall k, key_is_down k (calls (stop_uninterrupted b e)) = false.
Proof.
  intros H. unfold stop_uninterrupted.
  assert (Hc : consistent (log LogStopped
                (release_trigger b (release_trigger b (set_running false e))))).
  { apply consistent_log, consistent_release, consistent_release,
      consistent_set_running, H. }
  assert (Hh : _trigger_held (log LogStopped
                 (release_trigger b (release_trigger b (set_running false e)))) = false).
  { cbn [log _trigger_held]. apply release_held. }
  split; [exact Hh|]. intros k. rewrite (Hc k), Hh. reflexivity.
Qed.

End Consistency.

(** ** The held flag under every interleaving *)

Section FlagAfterStop.
Import RecoilEngine Interleaving.

Variable b : Backend.

Lemma pending_app (k1 k2 : list Op) : pending (k1 ++ k2) = pending k1 || pending k2.
Proof. apply existsb_app. Qed.

Lemma safe_before_pending (k1 k2 : list Op) :
  pending k2 = true -> safe k2 = true -> safe (k1 ++ k2) = true.
Proof.
  intros Hp Hs. induction k1 as [|o k1 IH]; [exact Hs|].
  cbn [app safe]. rewrite IH, andb_true_r.
  destruct (is_setter o); [|reflexivity].
  rewrite pending_app, Hp. apply orb_true_r.
Qed.

Lemma pull_and_move_held (w : TickInput) (fr : Frame) (e : Engine) (l : Locals) :
  _trigger_held (fst (pull_and_move b w fr (e, l))) = _trigger_held e.
Proof.
  unfold pull_and_move. cbn [count start_time shooting].
  destruct (compute_pull fr _ _) as [p failed].
  destruct failed, (raises b (MoveMouse 0 (py_int p))), ((count l + 1) mod 10 =? 0);
    reflexivity.
Qed.

(** A step keeps what comes after it safe. *)
Lemma exec_safe (w : TickInput) (o : Op) (e : Engine) (l : Locals) (k : list Op) :
  safe (o :: k) = true -> safe (snd (exec b w o e l) ++ k) = true.
Proof.
  intros H. cbn [safe] in H. apply andb_true_iff in H as [Ho Hk].
  destruct o; cbn [exec is_setter] in *;
    repeat match goal with
           | |- context [let '(_, _) := ?x in _] => destruct x
           | |- context [if ?c then _ else _] => destruct c
           end;
    cbn [snd app safe is_setter pending existsb is_releaser orb andb];
    rewrite ?Hk, ?Ho; try reflexivity; try exact Hk;
    unfold pending in Ho; rewrite Ho; reflexivity.
Qed.

(** If the flag is set after a step, the thread that took it still has a
    clearing step ahead, or the flag was set before and the thread had
    none ahead. *)
Lemma exec_held (w : TickInput) (o : Op) (e : Engine) (l : Locals) (k : list Op) :
  safe (o :: k) = true ->
  _trigger_held (fst (fst (exec b w o e l))) = true ->
  pending (snd (exec b w o e l) ++ k) = true
  \/ (_trigger_held e = true /\ pending (o :: k) = false).
Proof.
  intros H Hh. cbn [safe] in H. apply andb_true_iff in H as [Ho Hk].
  destruct (pending k) eqn:Hp.
  { left. rewrite pending_app, Hp. apply orb_true_r. }
  destruct o; cbn [is_setter] in Ho; try discriminate Ho;
    cbn [exec] in *.
  - (* ReleaseTest *)
    cbn [fst snd] in *. rewrite Hh. left. reflexivity.
  - left. reflexivity.
  - (* ReleaseClear *) cbn in Hh. discriminate Hh.
  - right. split; [exact Hh|exact Hp].
  - right. split; [exact Hh|exact Hp].
  - right. split; [exact Hh|exact Hp].
  - right. split; [exact Hh|exact Hp].
  - right. split; [exact Hh|exact Hp].
  - right. split; [exact Hh|exact Hp].
  - left. cbn [snd]. destruct (_running e); reflexivity.
  - left. destruct (poll w e). reflexivity.
  - left. cbn [snd]. rewrite pending_app. apply orb_true_iff. left.
    destruct (negb (press_key_enabled fr) && _trigger_held e); reflexivity.
  - left. rewrite pending_app. apply orb_true_iff. left.
    destruct (should_fire fr && negb (shooting l)); cbn [snd];
      [destruct (press_key_enabled fr)|]; reflexivity.
  - right. split; [exact Hh|exact Hp].
  - left. rewrite pending_app. apply orb_true_iff. left.
    destruct (shooting l && should_fire fr); cbn [snd];
      [destruct (press_key_enabled fr)|]; reflexivity.
  - right. pose proof (pull_and_move_held w fr e l) as Hpm.
    destruct (pull_and_move b w fr (e, l)). cbn [fst] in *.
    split; [rewrite <- Hpm; exact Hh|exact Hp].
  - left. rewrite pending_app. apply orb_true_iff. left.
    destruct (shooting l && negb (should_fire fr)); reflexivity.
  - right. split; [exact Hh|exact Hp].
Qed.

Lemma forallb_update_nth {A} (f : A -> bool) (x : A) (xs : list A) :
  forall i, forallb f xs = true -> f x = true -> forallb f (update_nth i x xs) = true.
Proof.
  induction xs as [|y xs IH]; intros i H Hx; [destruct i; reflexivity|].
  cbn [forallb] in H. apply andb_true_iff in H as [Hy H].
  destruct i; cbn [update_nth forallb].
  - rewrite Hx, H. reflexivity.
  - rewrite Hy, IH by assumption. reflexivity.
Qed.

Lemma forallb_nth_error {A} (f : A -> bool) (xs : list A) :
  forall i t, forallb f xs = true -> nth_error xs i = Some t -> f t = true.
Proof.
  induction xs as [|y xs IH]; intros i t H Hn; [destruct i; discriminate|].
  cbn [forallb] in H. apply andb_true_iff in H as [Hy H].
  destruct i; cbn [nth_error] in Hn.
  - injection Hn as <-. exact Hy.
  - exact (IH i t H Hn).
Qed.

Lemma existsb_update_nth_hit {A} (f : A -> bool) (x : A) (xs : list A) :
  forall i t, nth_error xs i = Some t -> f x = true ->
              existsb f (update_nth i x xs) = true.
Proof.
  induction xs as [|y xs IH]; intros i t Hn Hx; [destruct i; discriminate|].
  destruct i; cbn [update_nth existsb nth_error] in *.
  - rewrite Hx. reflexivity.
  - rewrite (IH i t Hn Hx). apply orb_true_r.
Qed.

Lemma existsb_update_nth_miss {A} (f : A -> bool) (x : A) (xs : list A) :
  forall i t, nth_error xs i = Some t -> f t = false -> existsb f xs = true ->
              existsb f (update_nth i x xs) = true.
Proof.
  induction xs as [|y xs IH]; intros i t Hn Ht H; [destruct i; discriminate|].
  destruct i; cbn [update_nth existsb nth_error] in *.
  - injection Hn as ->. rewrite Ht in H. cbn [orb] in H. rewrite H. apply orb_true_r.
  - destruct (f y); [reflexivity|]. cbn [orb] in *. exact (IH i t Hn Ht H).
Qed.

Lemma Op_eq_start_join (o : Op) :
  {o = StartOp} + {o = StopJoin} + {o <> StartOp /\ o <> StopJoin}.
Proof.
  destruct o; try (right; split; discriminate); left; [left|right]; reflexivity.
Qed.

Lemma step_main_exec (s : System) (o : Op) (k : list Op) :
  main s = o :: k -> o <> StartOp -> o <> StopJoin ->
  step_main b s
  = mkSystem (fst (fst (exec b (world s) o (eng s) locals0))) (world s)
             (snd (exec b (world s) o (eng s) locals0) ++ k) (loops s).
Proof.
  intros Hm H1 H2. unfold step_main. rewrite Hm.
  destruct o; try contradiction;
    match goal with
    | |- context [exec b (world s) ?o (eng s) locals0] =>
        destruct (exec b (world s) o (eng s) locals0) as [[e' l'] pre]
    end; reflexivity.
Qed.

Lemma flag_guarded_step_main (s : System) :
  flag_guarded s -> flag_guarded (step_main b s).
Proof.
  intros (Hs & Hl & Hj).
  destruct (main s) as [|o k] eqn:Hm.
  { unfold step_main. rewrite Hm. unfold flag_guarded. rewrite Hm.
    split; [exact Hs|split; [exact Hl|exact Hj]]. }
  assert (Hk : safe k = true).
  { cbn [safe] in Hs. apply andb_true_iff in Hs. apply Hs. }
  destruct (Op_eq_start_join o) as [[->| ->]|[H1 H2]].
  - (* start *)
    unfold step_main. rewrite Hm.
    destruct (_running (eng s)); unfold flag_guarded;
      cbn [main loops eng forallb existsb code safe pending is_releaser
           is_setter andb orb _trigger_held log set_running];
      (split; [exact Hk|split; [exact Hl|]]); intros Hh;
      specialize (Hj Hh); cbn [pending existsb is_releaser orb] in Hj.
    + exact Hj.
    + rewrite orb_true_r. reflexivity.
  - (* join *)
    unfold step_main. rewrite Hm.
    assert (Hgo : flag_guarded (mkSystem (eng s) (world s) k (loops s))).
    { unfold flag_guarded. cbn [main loops eng].
      split; [exact Hk|split; [exact Hl|]]. intros Hh.
      specialize (Hj Hh). cbn [pending existsb is_releaser orb] in Hj. exact Hj. }
    assert (Hstay : flag_guarded s).
    { unfold flag_guarded. rewrite Hm. split; [exact Hs|split; [exact Hl|exact Hj]]. }
    destruct (loops s) as [|t ts]; [exact Hgo|].
    destruct (code t); [exact Hgo|exact Hstay].
  - rewrite (step_main_exec s o k Hm H1 H2). unfold flag_guarded.
    cbn [main loops eng].
    split; [apply exec_safe; exact Hs|split; [exact Hl|]]. intros Hh.
    destruct (exec_held (world s) o (eng s) locals0 k Hs Hh) as [Hp|[Hh0 Hp]].
    + rewrite Hp. reflexivity.
    + specialize (Hj Hh0). rewrite Hp in Hj. cbn [orb] in Hj. rewrite Hj.
      apply orb_true_r.
Qed.

Lemma flag_guarded_step_loop (i : nat) (s : System) :
  flag_guarded s -> flag_guarded (step_loop b i s).
Proof.
  intros (Hs & Hl & Hj). unfold step_loop.
  destruct (nth_error (loops s) i) as [[l [|o k]]|] eqn:Hn;
    try (repeat split; assumption).
  pose proof (forallb_nth_error _ _ _ _ Hl Hn) as Ht. cbn [code] in Ht.
  destruct (exec b (world s) o (eng s) l) as [[e' l'] pre] eqn:E.
  pose proof (exec_safe (world s) o (eng s) l k Ht) as Hsafe.
  pose proof (exec_held (world s) o (eng s) l k Ht) as Hheld.
  rewrite E in Hsafe, Hheld. cbn [fst snd] in Hsafe, Hheld.
  unfold flag_guarded. cbn [main loops eng].
  split; [exact Hs|split].
  - apply forallb_update_nth; [exact Hl|exact Hsafe].
  - intros Hh. destruct (Hheld Hh) as [Hp|[Hh0 Hp]].
    + rewrite (existsb_update_nth_hit (fun t => pending (code t))
                 (mkThread l' (pre ++ k)) _ _ _ Hn Hp).
      apply orb_true_r.
    + specialize (Hj Hh0). destruct (pending (main s)); [reflexivity|].
      cbn [orb] in *.
      exact (existsb_update_nth_miss (fun t => pending (code t))
               (mkThread l' (pre ++ k)) _ _ _ Hn Hp Hj).
Qed.

Lemma flag_guarded_run (sched : list Pick) :
  forall s, flag_guarded s -> flag_guarded (run_schedule b sched s).
Proof.
  induction sched as [|p sched IH]; intros s H; [exact H|].
  cbn [run_schedule fold_left]. apply IH. destruct p; cbn [step].
  - apply flag_guarded_step_main, H.
  - apply flag_guarded_step_loop, H.
  - exact H.
Qed.

Lemma flag_guarded_boot (w : TickInput) (cs : list Call) :
  flag_guarded (boot w (cs ++ [CallStop])).
Proof.
  unfold flag_guarded, boot. cbn [main loops eng].
  rewrite flat_map_app. cbn [flat_map call_ops app].
  split; [apply safe_before_pending; reflexivity|].
  split; [reflexivity|]. intros H. discriminate H.
Qed.

Lemma finished_not_pending (ts : list Thread) :
  forallb (fun t => match code t with [] => true | _ => false end) ts = true ->
  existsb (fun t => pending (code t)) ts = false.
Proof.
  induction ts as [|t ts IH]; intros H; [reflexivity|].
  cbn [forallb existsb] in *. apply andb_true_iff in H as [Ht H].
  rewrite (IH H). destruct (code t); [reflexivity|discriminate].
Qed.

(** X7. Whatever the interleaving and whatever the backend does: once a
    sequence of calls that ends with [stop()] has returned and the loop
    threads have ended, [_trigger_held] is false. *)
Lemma flag_clear_after_stop (w : TickInput) (cs : list Call) (sched : list Pick) :
  let s := run_schedule b sched (boot w (cs ++ [CallStop])) in
  quiescent s = true -> _trigger_held (eng s) = false.
Proof.
  intros s Hq.
  destruct (flag_guarded_run sched _ (flag_guarded_boot w cs)) as (_ & _ & Hj).
  fold s in Hj. unfold quiescent in Hq.
  destruct (main s); [|discriminate].
  destruct (_trigger_held (eng s)); [|reflexivity].
  specialize (Hj eq_refl). rewrite (finished_not_pending _ Hq) in Hj.
  discriminate Hj.
Qed.

End FlagAfterStop.

(** ** [stop] against a rebinding that interrupts the loop *)

(** C1, at a race.  The owner calls [start()], [set_trigger_key('q')] and
    [stop()] while both buttons are held and every flag is on, and the
    backend never raises.  The loop thread has called [key_down('p')] on
    line 162 and not yet set the flag on line 163 when [set_trigger_key]
    runs: it sees the flag clear, releases nothing and makes 'q' the key.
    From then on every release goes to 'q'.  When [stop] has returned and
    the loop has ended, the flag is clear, and 'p' has been pressed and
    never released. *)
Theorem stop_after_racing_rebind_leaves_p_down :
  let start := Interleaving.boot Interleaving.firing Interleaving.race_calls in
  let mid := Interleaving.run_schedule quiet_backend
               (firstn 7 Interleaving.race_schedule) start in
  let final := Interleaving.run_schedule quiet_backend Interleaving.race_schedule start in
  (* the moment of the interruption *)
  RecoilEngine.calls (Interleaving.eng mid) = [KeyDown "p"]
  /\ RecoilEngine._trigger_held (Interleaving.eng mid) = false
  /\ hd_error (Interleaving.main mid) = Some (Interleaving.SetKey (Some "q"%string))
  /\ map (fun t => hd_error (Interleaving.code t)) (Interleaving.loops mid)
     = [Some Interleaving.EnsureSetHeld]
  (* after stop() has returned *)
  /\ Interleaving.quiescent final = true
  /\ RecoilEngine._running (Interleaving.eng final) = false
  /\ RecoilEngine._trigger_held (Interleaving.eng final) = false
  /\ RecoilEngine._trigger_key (Interleaving.eng final) = "q"%string
  /\ RecoilEngine.calls (Interleaving.eng final)
     = [KeyDown "p"; KeyUp "q"; KeyDown "q"; MoveMouse 0 2; KeyUp "q"]
  /\ key_is_down "p" (RecoilEngine.calls (Interleaving.eng final)) = true
  /\ ~ RecoilEngine.consistent (Interleaving.eng final).
Proof.
  cbv zeta. repeat split.
  intros H. specialize (H "p"%string). vm_compute in H. discriminate H.
Qed.

Lemma flag_clear_after_stop_witness :
  RecoilEngine._trigger_held
    (Interleaving.eng
       (Interleaving.run_schedule quiet_backend Interleaving.race_schedule
          (Interleaving.boot Interleaving.firing
             ([Interleaving.CallStart; Interleaving.CallSetTriggerKey (Some "q"%string)]
                ++ [Interleaving.CallStop])))) = false.
Proof.
  apply (flag_clear_after_stop quiet_backend Interleaving.firing
           [Interleaving.CallStart; Interleaving.CallSetTriggerKey (Some "q"%string)]
           Interleaving.race_schedule).
  vm_compute. reflexivity.
Defined.

(** ** With nothing interrupted *)

Section AtomicFacts.
Import RecoilEngine.

Variable b : Backend.
Hypothesis Hquiet : forall c, raises b c = false.

Lemma consistent_atomic_step (el : Engine * Locals) (ev : Atomic.Event) :
  consistent (fst el) -> consistent (fst (Atomic.step b el ev)).
Proof.
  intros H. destruct el as [e l]. destruct ev as [inp|[| |key|]]; cbn [Atomic.step fst snd].
  - destruct (_running e); [|exact H]. apply (consistent_loop_body b Hquiet), H.
  - unfold Atomic.start. destruct (_running e); [exact H|].
    apply consistent_log, consistent_set_running, H.
  - unfold stop_uninterrupted.
    apply consistent_log, (consistent_release b Hquiet), (consistent_release b Hquiet),
      consistent_set_running, H.
  - apply (consistent_set_trigger_key b Hquiet), H.
  - apply (consistent_release b Hquiet), H.
Qed.

Lemma consistent_atomic_run (evs : list Atomic.Event) :
  forall el, consistent (fst el) -> consistent (fst (fold_left (Atomic.step b) evs el)).
Proof.
  induction evs as [|ev evs IH]; intros el H; [exact H|].
  cbn [fold_left]. apply IH, consistent_atomic_step, H.
Qed.

End AtomicFacts.

(** X8. As long as no method and no loop iteration is interrupted by another
    thread and the backend does not raise, the keys follow the flag:
    after any sequence of [start], [stop], [set_trigger_key],
    [release_trigger] and loop iterations, the trigger key is down exactly
    when [_trigger_held] is set and no other key is down.  After a final
    [stop] the loop is off and no key at all is down. *)
Theorem uninterrupted_engine_leaves_no_key_down (b : Backend)
        (Hquiet : forall c, raises b c = false) (evs : list Atomic.Event) :
  let e := fst (Atomic.run b evs) in
  let e' := fst (Atomic.run b (evs ++ [Atomic.Called Interleaving.CallStop])) in
  (forall k, key_is_down k (RecoilEngine.calls e)
             = RecoilEngine._trigger_held e && String.eqb k (RecoilEngine._trigger_key e))
  /\ RecoilEngine._running e' = false
  /\ RecoilEngine._trigger_held e' = false
  /\ (forall k, key_is_down k (RecoilEngine.calls e') = false).
Proof.
  intros e e'.
  assert (Hc : RecoilEngine.consistent e).
  { apply consistent_atomic_run; [exact Hquiet|apply consistent_init]. }
  split; [exact Hc|].
  unfold e', Atomic.run. rewrite fold_left_app. cbn [fold_left Atomic.step fst].
  fold (Atomic.run b evs). fold e.
  destruct (stop_uninterrupted_releases b Hquiet e Hc) as (Hh & Hk).
  split; [|split; [exact Hh|exact Hk]].
  unfold RecoilEngine.stop_uninterrupted.
  cbn [RecoilEngine._running RecoilEngine.log]. rewrite !release_running. reflexivity.
Qed.

Lemma uninterrupted_engine_leaves_no_key_down_witness :
  RecoilEngine.calls
    (fst (Atomic.run quiet_backend
            ([Atomic.Called Interleaving.CallStart;
              Atomic.Iteration Interleaving.firing;
              Atomic.Called (Interleaving.CallSetTriggerKey (Some "q"%string));
              Atomic.Iteration Interleaving.firing]
               ++ [Atomic.Called Interleaving.CallStop])))
  = [KeyDown "p"; MoveMouse 0 2; KeyUp "p"; KeyDown "q"; MoveMouse 0 2; KeyUp "q"]
  /\ forall k,
      key_is_down k
        (RecoilEngine.calls
           (fst (Atomic.run quiet_backend
                   ([Atomic.Called Interleaving.CallStart;
                     Atomic.Iteration Interleaving.firing;
                     Atomic.Called (Interleaving.CallSetTriggerKey (Some "q"%string));
                     Atomic.Iteration Interleaving.firing]
                      ++ [Atomic.Called Interleaving.CallStop])))) = false.
Proof.
  split; [vm_compute; reflexivity|].
  pose proof (uninterrupted_engine_leaves_no_key_down quiet_backend (fun _ => eq_refl)
                [Atomic.Called Interleaving.CallStart;
                 Atomic.Iteration Interleaving.firing;
                 Atomic.Called (Interleaving.CallSetTriggerKey (Some "q"%string));
                 Atomic.Iteration Interleaving.firing]) as H.
  cbv zeta in H. destruct H as (_ & _ & _ & H). exact H.
Defined.

(** ** The loop as a state machine *)

Section LoopStateMachine.
Import RecoilEngine.

Variable b : Backend.

Lemma pull_and_move_keeps (inp : TickInput) (fr : Frame) (e : Engine) (l : Locals) :
  _trigger_held (fst (pull_and_move b inp fr (e, l))) = _trigger_held e
  /\ _trigger_key (fst (pull_and_move b inp fr (e, l))) = _trigger_key e.
Proof.
  unfold pull_and_move. cbn [count start_time shooting].
  destruct (compute_pull fr _ _) as [p failed].
  destruct failed, (raises b (MoveMouse 0 (py_int p))), ((count l + 1) mod 10 =? 0);
    split; reflexivity.
Qed.

(** What an iteration does once the poll is known. *)
Lemma loop_body_cases (inp : TickInput) (e : Engine) (l : Locals) :
  let e1 := fst (poll inp e) in
  let fr := snd (poll inp e) in
  let e2 := if negb (press_key_enabled fr) && _trigger_held e1
            then release_trigger b e1 else e1 in
  (should_fire fr = true -> shooting l = true ->
   loop_body b inp (e, l)
   = pull_and_move b inp fr
       (if press_key_enabled fr
        then _ensure_trigger_down b e2 else release_trigger b e2, l))
  /\ (should_fire fr = true -> shooting l = false ->
      loop_body b inp (e, l)
      = let e3 := log LogShootingStart
                      (if press_key_enabled fr then _ensure_trigger_down b e2 else e2) in
        pull_and_move b inp fr
          (if press_key_enabled fr
           then _ensure_trigger_down b e3 else release_trigger b e3,
           mkLocals 0 true (t_start inp)))
  /\ (should_fire fr = false -> shooting l = true ->
      loop_body b inp (e, l)
      = (log LogShootingEnd (release_trigger b e2), mkLocals 0 false 0))
  /\ (should_fire fr = false -> shooting l = false ->
      loop_body b inp (e, l) = (e2, l)).
Proof.
  intros e1 fr e2. subst e1 fr e2. unfold loop_body.
  destruct (poll inp e) as [e1 fr]. cbn [fst snd].
  repeat split; intros Hf Hs; rewrite Hf, Hs; cbn [andb negb shooting fst snd];
    rewrite ?Hs; cbn [andb negb]; try reflexivity.
  - match goal with
    | |- context [pull_and_move b inp fr ?x] =>
        pose proof (pull_and_move_spec b inp fr (fst x) (snd x)) as Hpm;
        cbn [fst snd] in Hpm; destruct Hpm as (_ & Hl & _);
        destruct (pull_and_move b inp fr x) as [e4 l4]
    end.
    cbn [snd] in Hl. subst l4. cbn [shooting]. rewrite Hs. reflexivity.
  - match goal with
    | |- context [pull_and_move b inp fr ?x] =>
        pose proof (pull_and_move_spec b inp fr (fst x) (snd x)) as Hpm;
        cbn [fst snd] in Hpm; destruct Hpm as (_ & Hl & _);
        destruct (pull_and_move b inp fr x) as [e4 l4]
    end.
    cbn [snd shooting] in Hl. subst l4. reflexivity.
  - rewrite Hs. reflexivity.
  - rewrite Hs. reflexivity.
Qed.


Lemma release_when_free (e : Engine) :
  _trigger_held e = false -> release_trigger b e = e.
Proof. intros H. unfold release_trigger. rewrite H. reflexivity. Qed.



(** X3. From shooting to idle: when the firing condition is gone, the
    iteration releases the trigger key if it was held, with exactly one
    [key_up] and whether or not automatic pressing is still on, issues
    nothing else, clears the flag and resets the session. *)
Theorem shooting_ends_with_one_key_up (inp : TickInput) (e : Engine) (l : Locals)
        (Hsh : shooting l = true)
        (Hfire : should_fire (snd (poll inp e)) = false) :
  let e' := fst (loop_body b inp (e, l)) in
  calls e' = calls e ++ (if _trigger_held e then [KeyUp (_trigger_key e)] else [])
  /\ _trigger_held e' = false
  /\ _trigger_key e' = _trigger_key e
  /\ snd (loop_body b inp (e, l)) = mkLocals 0 false 0
  /\ In LogShootingEnd (logged e').
Proof.
  cbv zeta.
  destruct (loop_body_cases inp e l) as (_ & _ & Hcase & _). cbv zeta in Hcase.
  rewrite (Hcase Hfire Hsh). clear Hcase. cbn [fst snd calls log _trigger_held
                                               _trigger_key logged].
  destruct (poll_engine inp e) as (Hc1 & _ & Hh1 & Hk1).
  set (e1 := fst (poll inp e)) in *. set (fr := snd (poll inp e)) in *.
  rewrite release_held, release_key_kept.
  split; [|split; [reflexivity|split; [|split; [reflexivity|]]]].
  - rewrite release_calls.
    destruct (negb (press_key_enabled fr) && _trigger_held e1) eqn:Hg.
    + apply andb_true_iff in Hg as [_ Hg]. rewrite release_held, release_calls, Hg.
      rewrite <- Hh1, Hg, Hc1, Hk1, app_nil_r. reflexivity.
    + rewrite Hc1, Hh1, Hk1. reflexivity.
  - destruct (negb (press_key_enabled fr) && _trigger_held e1);
      rewrite ?release_key_kept; exact Hk1.
  - apply in_or_app. right. left. reflexivity.
Qed.

(** X4. The loop holds the trigger only while shooting: if that is so before
    an iteration it is so after it, whatever the backend does; and an
    iteration never changes [_running] or the trigger key. *)
Theorem idle_loop_holds_nothing (inp : TickInput) (e : Engine) (l : Locals)
        (Hinv : shooting l = false -> _trigger_held e = false) :
  let e' := fst (loop_body b inp (e, l)) in
  let l' := snd (loop_body b inp (e, l)) in
  (shooting l' = false -> _trigger_held e' = false)
  /\ shooting l' = should_fire (snd (poll inp e))
  /\ _running e' = _running e
  /\ _trigger_key e' = _trigger_key e.
Proof.
  cbv zeta.
  destruct (loop_body_cases inp e l) as (H1 & H2 & H3 & H4). cbv zeta in *.
  destruct (poll_engine inp e) as (Hc1 & Hr1 & Hh1 & Hk1).
  set (e1 := fst (poll inp e)) in *. set (fr := snd (poll inp e)) in *.
  set (e2 := if negb (press_key_enabled fr) && _trigger_held e1
             then release_trigger b e1 else e1) in *.
  assert (Hr2 : _running e2 = _running e).
  { subst e2. destruct (negb (press_key_enabled fr) && _trigger_held e1);
      rewrite ?release_running; exact Hr1. }
  assert (Hk2 : _trigger_key e2 = _trigger_key e).
  { subst e2. destruct (negb (press_key_enabled fr) && _trigger_held e1);
      rewrite ?release_key_kept; exact Hk1. }
  destruct (should_fire fr) eqn:Hf, (shooting l) eqn:Hs.
  - rewrite (H1 eq_refl eq_refl).
    match goal with
    | |- context [pull_and_move b inp fr (?x, ?y)] =>
        destruct (pull_and_move_spec b inp fr x y) as (_ & Hl & Hr & _);
        destruct (pull_and_move_keeps inp fr x y) as (_ & Hk)
    end.
    rewrite Hl, Hr, Hk. cbn [shooting]. rewrite Hs.
    split; [discriminate|split; [reflexivity|]].
    destruct (press_key_enabled fr);
      rewrite ?ensure_running, ?release_running, ?ensure_key, ?release_key_kept; auto.
  - rewrite (H2 eq_refl eq_refl).
    match goal with
    | |- context [pull_and_move b inp fr (?x, ?y)] =>
        destruct (pull_and_move_spec b inp fr x y) as (_ & Hl & Hr & _);
        destruct (pull_and_move_keeps inp fr x y) as (_ & Hk)
    end.
    rewrite Hl, Hr, Hk. cbn [shooting].
    split; [discriminate|split; [reflexivity|]].
    destruct (press_key_enabled fr);
      rewrite ?ensure_running, ?release_running, ?ensure_key, ?release_key_kept;
      cbn [log _running _trigger_key];
      rewrite ?ensure_running, ?ensure_key; auto.
  - rewrite (H3 eq_refl eq_refl). cbn [fst snd shooting log _trigger_held _running
                                        _trigger_key].
    rewrite release_held, release_running, release_key_kept. auto.
  - rewrite (H4 eq_refl eq_refl). cbn [fst snd]. rewrite Hs.
    split; [|auto]. intros _. subst e2. rewrite Hh1, (Hinv eq_refl).
    rewrite andb_false_r. rewrite Hh1. apply Hinv. reflexivity.
Qed.

(** X5. With automatic pressing off, an iteration leaves the trigger released
    and issues no [key_down], whatever the state before and whatever the
    backend does. *)
Theorem press_key_off_never_presses (inp : TickInput) (e : Engine) (l : Locals)
        (Hpke : press_key_enabled (snd (poll inp e)) = false) :
  let e' := fst (loop_body b inp (e, l)) in
  _trigger_held e' = false
  /\ exists ks, calls e' = calls e ++ ks /\ filter is_key_down_call ks = [].
Proof.
  cbv zeta.
  destruct (loop_body_cases inp e l) as (H1 & H2 & H3 & H4). cbv zeta in *.
  destruct (poll_engine inp e) as (Hc1 & Hr1 & Hh1 & Hk1).
  set (e1 := fst (poll inp e)) in *. set (fr := snd (poll inp e)) in *.
  rewrite Hpke in *. cbn [negb andb] in *.
  set (e2 := if _trigger_held e1 then release_trigger b e1 else e1) in *.
  assert (Hh2 : _trigger_held e2 = false).
  { subst e2. destruct (_trigger_held e1) eqn:E; [apply release_held|exact E]. }
  assert (Hc2 : calls e2
                = calls e ++ (if _trigger_held e then [KeyUp (_trigger_key e)] else [])).
  { subst e2. rewrite <- Hh1. destruct (_trigger_held e1) eqn:E.
    - rewrite release_calls, E, Hc1, Hk1. reflexivity.
    - rewrite Hc1, app_nil_r. reflexivity. }
  assert (Hup : filter is_key_down_call
                       (if _trigger_held e then [KeyUp (_trigger_key e)] else []) = [])
    by (destruct (_trigger_held e); reflexivity).
  clearbody e2.
  destruct (should_fire fr) eqn:Hf, (shooting l) eqn:Hs.
  - rewrite (H1 eq_refl eq_refl), release_when_free by exact Hh2.
    destruct (pull_and_move_spec b inp fr e2 l) as (Hc & _).
    destruct (pull_and_move_keeps inp fr e2 l) as (Hh & _).
    rewrite Hh, Hc, Hc2, <- app_assoc. split; [exact Hh2|].
    eexists. split; [reflexivity|]. rewrite filter_app, Hup. reflexivity.
  - rewrite (H2 eq_refl eq_refl), release_when_free by exact Hh2.
    destruct (pull_and_move_spec b inp fr (log LogShootingStart e2)
                (mkLocals 0 true (t_start inp))) as (Hc & _).
    destruct (pull_and_move_keeps inp fr (log LogShootingStart e2)
                (mkLocals 0 true (t_start inp))) as (Hh & _).
    rewrite Hh, Hc. cbn [log calls _trigger_held]. rewrite Hc2, <- app_assoc.
    split; [exact Hh2|].
    eexists. split; [reflexivity|]. rewrite filter_app, Hup. reflexivity.
  - rewrite (H3 eq_refl eq_refl). cbn [fst log calls _trigger_held].
    rewrite release_when_free by exact Hh2. split; [exact Hh2|].
    eexists. split; [exact Hc2|exact Hup].
  - rewrite (H4 eq_refl eq_refl). cbn [fst]. split; [exact Hh2|].
    eexists. split; [exact Hc2|exact Hup].
Qed.

(** X6. An iteration that finds nothing to do: not shooting, no firing
    condition, trigger not held.  The backend receives nothing and the
    session is untouched. *)
Theorem idle_iteration_is_silent (inp : TickInput) (e : Engine) (l : Locals)
        (Hsh : shooting l = false)
        (Hheld : _trigger_held e = false)
        (Hfire : should_fire (snd (poll inp e)) = false) :
  calls (fst (loop_body b inp (e, l))) = calls e
  /\ _trigger_held (fst (loop_body b inp (e, l))) = false
  /\ snd (loop_body b inp (e, l)) = l.
Proof.
  destruct (loop_body_cases inp e l) as (_ & _ & _ & Hcase). cbv zeta in Hcase.
  rewrite (Hcase Hfire Hsh). cbn [fst snd].
  destruct (poll_engine inp e) as (Hc1 & _ & Hh1 & _).
  rewrite Hh1, Hheld, andb_false_r. rewrite Hc1, Hh1. auto.
Qed.

End LoopStateMachine.



Lemma shooting_ends_with_one_key_up_witness :
  RecoilEngine.calls
    (fst (RecoilEngine.loop_body quiet_backend
            (RecoilEngine.mkTickInput None 0 0)
            (RecoilEngine.mkEngine true "p" true [] [], RecoilEngine.mkLocals 3 true 0)))
  = [KeyUp "p"].
Proof.
  apply (shooting_ends_with_one_key_up quiet_backend (RecoilEngine.mkTickInput None 0 0)
           (RecoilEngine.mkEngine true "p" true [] []) (RecoilEngine.mkLocals 3 true 0)
           eq_refl eq_refl).
Defined.

Lemma idle_loop_holds_nothing_witness :
  RecoilEngine.shooting
    (snd (RecoilEngine.loop_body quiet_backend Interleaving.firing
            (RecoilEngine.init, RecoilEngine.locals0))) = true.
Proof.
  apply (idle_loop_holds_nothing quiet_backend Interleaving.firing
           RecoilEngine.init RecoilEngine.locals0 (fun _ => eq_refl)).
Defined.

Lemma press_key_off_never_presses_witness :
  RecoilEngine._trigger_held
    (fst (RecoilEngine.loop_body quiet_backend
            (RecoilEngine.mkTickInput
               (Some (RecoilEngine.mkPolled
                        (Some (RecoilEngine.mkStateDict (Some true) (Some true)
                                                        (Some true) (Some false)))
                        None None)) 0 0)
            (RecoilEngine.mkEngine true "p" true [] [], RecoilEngine.mkLocals 3 true 0)))
  = false.
Proof.
  apply (press_key_off_never_presses quiet_backend
           (RecoilEngine.mkTickInput
              (Some (RecoilEngine.mkPolled
                       (Some (RecoilEngine.mkStateDict (Some true) (Some true)
                                                       (Some true) (Some false)))
                       None None)) 0 0)
           (RecoilEngine.mkEngine true "p" true [] []) (RecoilEngine.mkLocals 3 true 0)
           eq_refl).
Defined.

Lemma idle_iteration_is_silent_witness :
  RecoilEngine.calls
    (fst (RecoilEngine.loop_body quiet_backend (RecoilEngine.mkTickInput None 0 0)
            (RecoilEngine.init, RecoilEngine.locals0))) = [].
Proof.
  apply (idle_iteration_is_silent quiet_backend (RecoilEngine.mkTickInput None 0 0)
           RecoilEngine.init RecoilEngine.locals0 eq_refl eq_refl eq_refl).
Defined.

(** ** More on the auto-click loop *)

Section AutoClickMore.
Import AutoClickThread.

(** Every field after an iteration, by whether it clicked. *)
Lemma run_body_fields (inp : ClickInput) (c : Clicker) (g : Z) :
  let c1 := update_shadow (get_bool (st_left_hold inp) false)
                          (_physical_left_pressed (async_key_state inp)) (now inp) c in
  let go := get_bool (st_auto_click_enabled inp) false
            && (_physical_left_pressed (async_key_state inp) || _hold_shadow c1) in
  let c' := fst (fst (run_body inp (c, g))) in
  let g' := snd (fst (run_body inp (c, g))) in
  _clicking c' = go
  /\ _synthing c' = (if go then false else _synthing c)
  /\ _last_synth_ts c' = (if go then t_done inp else _last_synth_ts c)
  /\ g' = (if go then SynthGuard.end_synth (SynthGuard.begin_synth g) else g)
  /\ logged c' = logged c ++ (if go then if _clicking c then [] else [LogClickingOn]
                              else if _clicking c then [LogClickingOff] else [])
  /\ _running c' = _running c
  /\ _delay_ms c' = _delay_ms c
  /\ _rand_ms c' = _rand_ms c.
Proof.
  intros c1 go c' g'. subst c' g'. unfold run_body. fold c1. fold go.
  assert (H1 : _clicking c1 = _clicking c /\ _synthing c1 = _synthing c
               /\ _last_synth_ts c1 = _last_synth_ts c /\ logged c1 = logged c
               /\ _running c1 = _running c /\ _delay_ms c1 = _delay_ms c
               /\ _rand_ms c1 = _rand_ms c).
  { subst c1. unfold update_shadow.
    destruct (get_bool (st_left_hold inp) false); [cbn; tauto|].
    destruct (negb _ && negb (_synthing c) && Qltb (3 # 100) (now inp - _last_synth_ts c));
      cbn; tauto. }
  destruct H1 as (Hk & Hs & Ht & Hl & Hr & Hd & Hj). clearbody c1.
  destruct go; destruct (_clicking c1) eqn:Ek; rewrite <- Hk; cbn;
    rewrite ?Ek, ?Hl, ?Hr, ?Hd, ?Hj, ?Hs, ?Ht, ?app_nil_r; repeat split; reflexivity.
Qed.

End AutoClickMore.






(** X12. The clicking flag says whether the latest iteration clicked, and the
    log gets a line only when that changes; an iteration never touches
    [_running] or the delay settings, and hands the guard back at the depth
    it had (for a non-negative depth) with no synthesis left in progress. *)
Theorem clicking_flag_follows_clicks (inp : AutoClickThread.ClickInput)
        (c : AutoClickThread.Clicker) (g : Z) (Hg : 0 <= g) :
  let c' := fst (fst (AutoClickThread.run_body inp (c, g))) in
  let clicked := negb (Nat.eqb (List.length (AutoClickThread.events c'))
                               (List.length (AutoClickThread.events c))) in
  AutoClickThread._clicking c' = clicked
  /\ AutoClickThread.logged c'
     = AutoClickThread.logged c
         ++ (if clicked
             then if AutoClickThread._clicking c then [] else [AutoClickThread.LogClickingOn]
             else if AutoClickThread._clicking c then [AutoClickThread.LogClickingOff]
                  else [])
  /\ snd (fst (AutoClickThread.run_body inp (c, g))) = g
  /\ (clicked = true -> AutoClickThread._synthing c' = false)
  /\ AutoClickThread._running c' = AutoClickThread._running c
  /\ AutoClickThread._delay_ms c' = AutoClickThread._delay_ms c
  /\ AutoClickThread._rand_ms c' = AutoClickThread._rand_ms c.
Proof.
  intros c' clicked.
  pose proof (run_body_clicks inp c g) as H. cbv zeta in H.
  pose proof (run_body_fields inp c g) as F. cbv zeta in F.
  subst clicked c'.
  destruct (AutoClickThread.run_body inp (c, g)) as [[c' g'] sl]. cbn [fst snd] in *.
  destruct H as (_ & He & _).
  destruct F as (Fk & Fs & _ & Fg & Fl & Fr & Fd & Fj).
  match type of He with
  | context [if ?x then _ else _] => set (go := x) in *
  end.
  assert (Hc : negb (Nat.eqb (List.length (AutoClickThread.events c'))
                             (List.length (AutoClickThread.events c))) = go).
  { rewrite He, length_app. destruct go; cbn [List.length].
    - apply negb_true_iff, Nat.eqb_neq. lia.
    - rewrite Nat.add_0_r, Nat.eqb_refl. reflexivity. }
  rewrite Hc. split; [exact Fk|]. split; [exact Fl|]. split.
  - rewrite Fg. destruct go; [|reflexivity].
    unfold SynthGuard.end_synth, SynthGuard.begin_synth.
    replace (g + 1 >? 0) with true by (symmetry; apply Z.gtb_lt; lia). lia.
  - split; [intros Hgo; rewrite Fs, Hgo; reflexivity|]. auto.
Qed.

Lemma clicking_flag_follows_clicks_witness :
  AutoClickThread._clicking
    (fst (fst (AutoClickThread.run_body
                 (AutoClickThread.mkClickInput (Some true) (Some true) (Some 0) 1 2 0)
                 (AutoClickThread.init 20 20, 0)))) = true.
Proof.
  apply (clicking_flag_follows_clicks
           (AutoClickThread.mkClickInput (Some true) (Some true) (Some 0) 1 2 0)
           (AutoClickThread.init 20 20) 0).
  lia.
Defined.

(** ** Stripping and lowercasing *)

Section StringFacts.













End StringFacts.

(** ** The WinAPI backend *)

(** X13. [_ensure_char] gives the empty string only for [None] and for an empty
    string.  For an [int] the mask keeps the code point below 0x10000, so
    [chr] cannot raise and the [ValueError] handler is never taken; for a
    string it is the first character. *)
Theorem ensure_char_total :
  (forall n, WinAPIBackend._ensure_char (WinAPIBackend.KInt n)
             = Some (Z.to_N (Z.land n 65535))
             /\ (Z.to_N (Z.land n 65535) < 65536)%N)
  /\ (forall s, WinAPIBackend._ensure_char (WinAPIBackend.KStr s) = None
                <-> s = EmptyString)
  /\ (forall c s, WinAPIBackend._ensure_char (WinAPIBackend.KStr (String c s))
                  = Some (N_of_ascii c))
  /\ WinAPIBackend._ensure_char WinAPIBackend.KNone = None.
Proof.
  split; [|split; [|split; reflexivity]].
  - intros n.
    assert (H : 0 <= Z.land n 65535 < 65536).
    { change 65535 with (Z.ones 16). rewrite Z.land_ones by lia.
      apply Z.mod_pos_bound. lia. }
    unfold WinAPIBackend._ensure_char, WinAPIBackend.py_chr.
    replace ((0 <=? Z.land n 65535) && (Z.land n 65535 <=? 1114111)) with true
      by (symmetry; apply andb_true_iff; split; apply Z.leb_le; lia).
    split; [reflexivity|]. lia.
  - intros s. destruct s; cbn; split; try reflexivity; discriminate.
Qed.

(** X14. A key press reaches [SendInput] exactly when the release of the same
    key does, and then both carry the same scan code and no virtual key;
    the press has the flags [SCANCODE] alone and the release has [KEYUP]
    as well.  So [key_tap] sends two events or none, never a press
    alone. *)
Theorem key_down_and_up_are_paired (VkKeyScanW : N -> Z) (MapVirtualKeyW : Z -> Z)
        (ch : string) :
  let down := WinAPIBackend.key_down VkKeyScanW MapVirtualKeyW ch in
  let up := WinAPIBackend.key_up VkKeyScanW MapVirtualKeyW ch in
  (down = [] /\ up = []
   /\ WinAPIBackend.key_tap VkKeyScanW MapVirtualKeyW ch = [])
  \/ (exists sc,
         0 <= sc < 65536
         /\ down = [WinAPIBackend.InputKeyboard (WinAPIBackend.mkKEYBDINPUT 0 sc 8)]
         /\ up = [WinAPIBackend.InputKeyboard (WinAPIBackend.mkKEYBDINPUT 0 sc 10)]
         /\ WinAPIBackend.key_tap VkKeyScanW MapVirtualKeyW ch = down ++ up
         /\ Z.land 8 WinAPIBackend.KEYEVENTF_KEYUP = 0
         /\ Z.land 10 WinAPIBackend.KEYEVENTF_KEYUP = WinAPIBackend.KEYEVENTF_KEYUP).
Proof.
  intros down up. subst down up.
  unfold WinAPIBackend.key_tap, WinAPIBackend.key_down, WinAPIBackend.key_up,
    WinAPIBackend._send_key.
  destruct (WinAPIBackend._ensure_char (WinAPIBackend.KStr ch)) as [c|];
    [|left; repeat split].
  destruct (VkKeyScanW c =? -1); [left; repeat split|].
  destruct (MapVirtualKeyW (Z.land (VkKeyScanW c) 255) =? 0); [left; repeat split|].
  right. exists (WinAPIBackend.c_ushort (MapVirtualKeyW (Z.land (VkKeyScanW c) 255))).
  split; [unfold WinAPIBackend.c_ushort; apply Z.mod_pos_bound; lia|].
  repeat split.
Qed.

(** X15. A mouse move is one [INPUT] with the [MOVE] flag, and carries both
    offsets unchanged as long as they fit a 32-bit [c_long]. *)
Theorem move_mouse_keeps_offsets (x y : Z)
        (Hx : -2147483648 <= x < 2147483648) (Hy : -2147483648 <= y < 2147483648) :
  WinAPIBackend.move_mouse x y
  = [WinAPIBackend.InputMouse (WinAPIBackend.mkMOUSEINPUT x y 0 1)].
Proof.
  unfold WinAPIBackend.move_mouse, WinAPIBackend._send_mouse_move, WinAPIBackend.c_long.
  rewrite !Z.mod_small by lia.
  replace (x + 2147483648 - 2147483648) with x by lia.
  replace (y + 2147483648 - 2147483648) with y by lia. reflexivity.
Qed.

Lemma move_mouse_keeps_offsets_witness :
  WinAPIBackend.move_mouse 0 2
  = [WinAPIBackend.InputMouse (WinAPIBackend.mkMOUSEINPUT 0 2 0 1)].
Proof. apply move_mouse_keeps_offsets; lia. Defined.

(** ** The hotkey manager *)

Section HotkeyFacts.
Import HotkeyManager.

Context {A : Type}.

Lemma set_mem_add (x : string) (s : list string) : set_mem x (set_add x s) = true.
Proof.
  unfold set_add. destruct (set_mem x s) eqn:E; [exact E|].
  unfold set_mem. rewrite existsb_app. cbn. rewrite String.eqb_refl.
  rewrite orb_true_r. reflexivity.
Qed.

Lemma dict_get_set {V : Type} (k : string) (v : V) (d : list (string * V)) :
  dict_get k (dict_set k v d) = Some v.
Proof.
  induction d as [|[k' v'] d IH]; cbn [dict_set dict_get].
  - rewrite String.eqb_refl. reflexivity.
  - destruct (String.eqb k' k) eqn:E; cbn [dict_get]; rewrite E; [reflexivity|exact IH].
Qed.

Lemma dict_set_in {V : Type} (k : string) (v : V) (d : list (string * V)) :
  exists k', String.eqb k' k = true /\ In (k', v) (dict_set k v d).
Proof.
  induction d as [|[k0 v0] d IH]; cbn [dict_set].
  - exists k. split; [apply String.eqb_refl|left; reflexivity].
  - destruct (String.eqb k0 k) eqn:E.
    + exists k0. split; [exact E|left; reflexivity].
    + destruct IH as (k' & Hk & Hin). exists k'. split; [exact Hk|right; exact Hin].
Qed.

End HotkeyFacts.

(** X16. A key that stays down fires its hotkey once: handling the same "down"
    event a second time, as auto-repeat delivers it, changes nothing. *)
Theorem held_key_fires_once {A : Type} (ev : HotkeyManager.KeyEvent)
        (m : HotkeyManager.Manager A)
        (Hdown : HotkeyManager.event_type ev = "down"%string) :
  HotkeyManager._handle_event ev (HotkeyManager._handle_event ev m)
  = HotkeyManager._handle_event ev m.
Proof.
  set (name := py_lower (match HotkeyManager.ev_name ev with
                         | Some n => n
                         | None => EmptyString
                         end)).
  assert (Hstep : forall x : HotkeyManager.Manager A,
             HotkeyManager._handle_event ev x
             = if HotkeyManager._paused x then x
               else if str_falsy name then x
               else if set_mem name (HotkeyManager._pressed x) then x
               else HotkeyManager.mkManager
                      (HotkeyManager._bindings x) (HotkeyManager._paused x)
                      (set_add name (HotkeyManager._pressed x)) (HotkeyManager._hook x)
                      (HotkeyManager.scheduled x
                         ++ HotkeyManager.bound_to name (HotkeyManager._bindings x))
                      (HotkeyManager.logged x)).
  { intros x. unfold HotkeyManager._handle_event. fold name. rewrite Hdown.
    reflexivity. }
  rewrite (Hstep m).
  destruct (HotkeyManager._paused m) eqn:Hp; [rewrite Hstep, Hp; reflexivity|].
  destruct (str_falsy name) eqn:Hn; [rewrite Hstep, Hp; reflexivity|].
  destruct (set_mem name (HotkeyManager._pressed m)) eqn:Hs;
    [rewrite Hstep, Hp, Hs; reflexivity|].
  rewrite Hstep. cbn [HotkeyManager._paused HotkeyManager._pressed].
  rewrite set_mem_add. reflexivity.
Qed.

Lemma held_key_fires_once_witness :
  let ev := HotkeyManager.mkKeyEvent (Some "F8"%string) "down" in
  let m := HotkeyManager.register "fire" (Some "f8"%string) App.ToggleFire
                                  HotkeyManager.init in
  HotkeyManager.scheduled
    (HotkeyManager._handle_event ev (HotkeyManager._handle_event ev m))
  = [App.ToggleFire].
Proof.
  intros ev m. rewrite (held_key_fires_once ev m eq_refl). reflexivity.
Defined.

(** X17. After [register(action, key, callback)], pressing the key fires the
    callback: the name is compared after stripping and lowercasing on the
    one side and lowercasing on the other, so " F8 " is fired by "F8".
    This needs the manager not paused, a key that is not blank, and the key
    not already down. *)
Theorem registered_hotkey_fires {A : Type} (m : HotkeyManager.Manager A)
        (action key name : string) (cb : A)
        (Hrun : HotkeyManager._paused m = false)
        (Hkey : py_lower (py_strip key) <> EmptyString)
        (Hname : py_lower name = py_lower (py_strip key))
        (Hup : set_mem (py_lower name) (HotkeyManager._pressed m) = false) :
  let m1 := HotkeyManager.register action (Some key) cb m in
  let m2 := HotkeyManager._handle_event
              (HotkeyManager.mkKeyEvent (Some name) "down") m1 in
  dict_get action (HotkeyManager._bindings m1)
  = Some (HotkeyManager.mkBinding (Some (py_lower (py_strip key))) cb)
  /\ exists before after,
      HotkeyManager.scheduled m2 = HotkeyManager.scheduled m ++ before ++ cb :: after.
Proof.
  intros m1 m2. subst m2 m1.
  unfold HotkeyManager.register, HotkeyManager.update_key.
  cbn [HotkeyManager._bindings]. rewrite dict_get_set.
  cbn [HotkeyManager.b_callback HotkeyManager._bindings HotkeyManager._paused
       HotkeyManager._pressed HotkeyManager._hook HotkeyManager.scheduled].
  split; [apply dict_get_set|].
  unfold HotkeyManager._handle_event.
  cbn [HotkeyManager._paused HotkeyManager._pressed HotkeyManager.ev_name
       HotkeyManager.event_type HotkeyManager._bindings HotkeyManager.scheduled].
  rewrite Hrun.
  assert (Hnf : str_falsy (py_lower name) = false).
  { rewrite Hname. destruct (py_lower (py_strip key)); [contradiction|reflexivity]. }
  rewrite Hnf. cbn [String.eqb Ascii.eqb Bool.eqb andb]. rewrite Hup.
  cbn [HotkeyManager.scheduled].
  match goal with
  | |- context [HotkeyManager.bound_to ?n ?bs] =>
      assert (Hin : In cb (HotkeyManager.bound_to n bs))
  end.
  { unfold HotkeyManager.bound_to.
    match goal with
    | |- In cb (map _ (filter _ (dict_set ?k ?v ?d))) =>
        destruct (dict_set_in k v d) as (k' & _ & Hk');
        apply in_map_iff; exists (k', v)
    end.
    split; [reflexivity|]. apply filter_In. split; [exact Hk'|].
    cbn [snd HotkeyManager.b_key]. rewrite Hname. apply String.eqb_refl. }
  apply in_split in Hin. destruct Hin as (before & after & Hs).
  exists before, after. rewrite Hs. reflexivity.
Qed.

Lemma registered_hotkey_fires_witness :
  exists before after,
    HotkeyManager.scheduled
      (HotkeyManager._handle_event
         (HotkeyManager.mkKeyEvent (Some "F8"%string) "down")
         (HotkeyManager.register "fire" (Some " F8 "%string) App.ToggleFire
                                 HotkeyManager.init))
    = [] ++ before ++ App.ToggleFire :: after.
Proof.
  apply (registered_hotkey_fires HotkeyManager.init "fire" " F8 " "F8" App.ToggleFire).
  - reflexivity.
  - vm_compute. discriminate.
  - reflexivity.
  - reflexivity.
Defined.

(** X18. Events never fire anything else: what an event adds to the scheduled
    callbacks comes from bindings whose key is the lowercased name of a
    "down" event, which is never empty, so a cleared binding cannot fire;
    and an event never changes the bindings. *)
Theorem only_bound_keys_fire {A : Type} (ev : HotkeyManager.KeyEvent)
        (m : HotkeyManager.Manager A) :
  let m' := HotkeyManager._handle_event ev m in
  HotkeyManager._bindings m' = HotkeyManager._bindings m
  /\ exists fired,
      HotkeyManager.scheduled m' = HotkeyManager.scheduled m ++ fired
      /\ forall cb, In cb fired ->
           HotkeyManager.event_type ev = "down"%string
           /\ HotkeyManager._paused m = false
           /\ exists action bd k,
               In (action, bd) (HotkeyManager._bindings m)
               /\ HotkeyManager.b_callback bd = cb
               /\ HotkeyManager.b_key bd = Some k
               /\ k <> EmptyString
               /\ k = py_lower (match HotkeyManager.ev_name ev with
                                | Some n => n
                                | None => EmptyString
                                end).
Proof.
  intros m'. subst m'. unfold HotkeyManager._handle_event.
  set (name := py_lower _).
  assert (Hnone : HotkeyManager._bindings m = HotkeyManager._bindings m
                  /\ exists fired : list A,
                      HotkeyManager.scheduled m = HotkeyManager.scheduled m ++ fired
                      /\ forall cb, In cb fired ->
                           HotkeyManager.event_type ev = "down"%string
                           /\ HotkeyManager._paused m = false
                           /\ exists action bd k,
                               In (action, bd) (HotkeyManager._bindings m)
                               /\ HotkeyManager.b_callback bd = cb
                               /\ HotkeyManager.b_key bd = Some k
                               /\ k <> EmptyString /\ k = name).
  { split; [reflexivity|]. exists []. rewrite app_nil_r. split; [reflexivity|].
    intros cb []. }
  destruct (HotkeyManager._paused m) eqn:Hp; [exact Hnone|].
  destruct (str_falsy name) eqn:Hn; [exact Hnone|].
  destruct (String.eqb (HotkeyManager.event_type ev) "down") eqn:Hd.
  - destruct (set_mem name (HotkeyManager._pressed m)); [exact Hnone|].
    cbn [HotkeyManager._bindings HotkeyManager.scheduled].
    split; [reflexivity|]. eexists. split; [reflexivity|].
    intros cb Hin. apply String.eqb_eq in Hd. split; [exact Hd|]. split; [reflexivity|].
    unfold HotkeyManager.bound_to in Hin. apply in_map_iff in Hin.
    destruct Hin as ([action bd] & Hcb & Hf). apply filter_In in Hf.
    destruct Hf as (Hin & Hk). cbn [snd] in *.
    destruct (HotkeyManager.b_key bd) as [k|] eqn:Ek; [|discriminate].
    apply String.eqb_eq in Hk. exists action, bd, k.
    repeat split; try assumption.
    subst k. intros E. rewrite E in Hn. discriminate.
  - destruct (String.eqb (HotkeyManager.event_type ev) "up"); [|exact Hnone].
    cbn [HotkeyManager._bindings HotkeyManager.scheduled]. exact Hnone.
Qed.

(** A paused or shut-down manager ignores every event; and after pausing
    and resuming, the manager runs again with no key remembered as down. *)
Theorem paused_manager_ignores_events {A : Type} (ev : HotkeyManager.KeyEvent)
        (m : HotkeyManager.Manager A) :
  HotkeyManager._handle_event ev (HotkeyManager.pause_all m) = HotkeyManager.pause_all m
  /\ HotkeyManager._handle_event ev (HotkeyManager.shutdown m) = HotkeyManager.shutdown m
  /\ HotkeyManager._hook (HotkeyManager.shutdown m) = false
  /\ HotkeyManager._paused (HotkeyManager.resume_all (HotkeyManager.pause_all m)) = false
  /\ HotkeyManager._pressed (HotkeyManager.resume_all (HotkeyManager.pause_all m)) = [].
Proof.
  unfold HotkeyManager.pause_all, HotkeyManager.resume_all, HotkeyManager.shutdown,
    HotkeyManager._handle_event.
  destruct (HotkeyManager._paused m) eqn:Hp; cbn; rewrite ?Hp; cbn; repeat split.
Qed.

(** ** The application state *)

(** X19. Between [begin_synth] and the matching [end_synth] the mouse listener
    changes nothing: whatever button events arrive in that window, the
    state is afterwards exactly what it was (for a non-negative guard).
    Outside such a window a left or right event sets that button's hold
    flag and nothing else. *)
Theorem synth_window_hides_mouse_events (s : App.State)
        (evs : list (App.Button * bool)) (Hg : 0 <= App._synth_guard s) :
  App.end_synth
    (fold_left (fun st ev => App._on_mouse (fst ev) (snd ev) st) evs (App.begin_synth s))
  = s
  /\ (App.is_synth s = false ->
      forall pressed,
        App._on_mouse App.ButtonLeft pressed s = App.with_holds (App.right_hold s) pressed s
        /\ App._on_mouse App.ButtonRight pressed s
           = App.with_holds pressed (App.left_hold s) s
        /\ App._on_mouse App.ButtonOther pressed s = s).
Proof.
  split.
  - assert (Hfix : forall st, App.is_synth st = true ->
               fold_left (fun st ev => App._on_mouse (fst ev) (snd ev) st) evs st = st).
    { induction evs as [|ev evs IH]; intros st Hst; [reflexivity|].
      cbn [fold_left]. unfold App._on_mouse at 2. rewrite Hst. apply IH, Hst. }
    rewrite Hfix.
    + destruct s as [f1 f2 f3 f4 ch cw rh lh g kb].
      unfold App.end_synth, App.begin_synth, App.with_guard.
      cbn in *. unfold SynthGuard.end_synth, SynthGuard.begin_synth.
      replace (g + 1 >? 0) with true by (symmetry; apply Z.gtb_lt; lia).
      f_equal. lia.
    + unfold App.is_synth, App.begin_synth, App.with_guard. cbn.
      unfold SynthGuard.is_synth, SynthGuard.begin_synth. apply Z.gtb_lt. lia.
  - intros Hs pressed. unfold App._on_mouse. rewrite Hs. repeat split.
Qed.

Lemma synth_window_hides_mouse_events_witness :
  App.end_synth
    (fold_left (fun st ev => App._on_mouse (fst ev) (snd ev) st)
               [(App.ButtonLeft, true); (App.ButtonLeft, false)]
               (App.begin_synth App.State_init))
  = App.State_init.
Proof.
  exact (proj1 (synth_window_hides_mouse_events App.State_init
                  [(App.ButtonLeft, true); (App.ButtonLeft, false)] (Z.le_refl 0))).
Defined.

(** What the engine makes of the state it polls through [as_dict]: every
    key it looks up is there, so its defaults are never used; it fires
    exactly when [fire_enabled], [right_hold] and [left_hold] all hold,
    presses the trigger key by [press_key_enabled], takes the current
    weapon or the default profile when there is none, and never gets a
    custom pull function. *)
Theorem engine_reads_state (s : App.State) (t0 t1 : Q) (e : RecoilEngine.Engine) :
  let inp := RecoilEngine.mkTickInput (Some (App.engine_poll s)) t0 t1 in
  let fr := snd (RecoilEngine.poll inp e) in
  fst (RecoilEngine.poll inp e) = e
  /\ RecoilEngine.should_fire fr
     = App.fire_enabled s && App.right_hold s && App.left_hold s
  /\ RecoilEngine.press_key_enabled fr = App.press_key_enabled s
  /\ RecoilEngine.cfg fr = match App.current_weapon s with
                           | Some w => w
                           | None => WeaponConfig_named "Default"
                           end
  /\ RecoilEngine.calc fr = None.
Proof.
  cbv zeta. repeat split.
Qed.

(** X20. [update_click_params] never leaves the clicker with a delay below 1 ms
    or a negative jitter: [random.randint(-_rand_ms, _rand_ms)] has a value
    to return, every delay it can lead to lies between 1 and the sum of
    the two settings, and the settings written to the file are the clamped
    ones. *)
Theorem click_params_are_clamped (base rand : Z) (a : App.App) :
  let a' := App.update_click_params base rand a in
  let c := App.click_thread a' in
  AutoClickThread._delay_ms c = Z.max 1 base
  /\ AutoClickThread._rand_ms c = Z.max 0 rand
  /\ App.click_delay a' = Z.max 1 base
  /\ App.click_rand a' = Z.max 0 rand
  /\ AutoClickThread.randint_returns
       (- AutoClickThread._rand_ms c) (AutoClickThread._rand_ms c) 0
  /\ (forall r,
         AutoClickThread.randint_returns
           (- AutoClickThread._rand_ms c) (AutoClickThread._rand_ms c) r ->
         1 <= AutoClickThread.click_delay c r <= Z.max 1 base + Z.max 0 rand)
  /\ (exists d, last (App.effects a') (App.Tone "") = App.Persist d
                /\ App.s_click_delay d = Z.max 1 base
                /\ App.s_click_rand d = Z.max 0 rand).
Proof.
  cbv zeta. unfold App.update_click_params, App._persist_state, App.emit,
              App.with_cache, App.with_click_thread, App.with_click.
  cbn [App.click_thread App.click_delay App.click_rand App.effects
       AutoClickThread._delay_ms AutoClickThread._rand_ms].
  split; [reflexivity|]. split; [reflexivity|]. split; [reflexivity|].
  split; [reflexivity|].
  split; [unfold AutoClickThread.randint_returns; lia|].
  split.
  - intros r Hr. unfold AutoClickThread.randint_returns in Hr.
    unfold AutoClickThread.click_delay. cbn [AutoClickThread._delay_ms]. lia.
  - eexists. rewrite last_last. split; [reflexivity|]. split; reflexivity.
Qed.


(** ** Choosing a weapon *)

Section WeaponFacts.
Import App.

Lemma index_of_name_found (ws : list WeaponConfig) :
  forall (k : nat) (w : WeaponConfig) (i : Z),
    NoDup (map name ws) -> nth_error ws k = Some w ->
    index_of_name (name w) ws i = i + Z.of_nat k.
Proof.
  induction ws as [|w0 ws IH]; intros k w i Hnd Hk; [destruct k; discriminate|].
  cbn [index_of_name]. destruct k as [|k]; cbn [nth_error] in Hk.
  - injection Hk as ->. rewrite String.eqb_refl. lia.
  - cbn [map] in Hnd. inversion Hnd as [|x xs Hnotin Hnd']. subst.
    destruct (String.eqb (name w0) (name w)) eqn:E.
    + apply String.eqb_eq in E. exfalso. apply Hnotin. rewrite E.
      apply in_map. exact (nth_error_In _ _ Hk).
    + rewrite (IH k w (i + 1) Hnd' Hk). lia.
Qed.

Lemma index_of_name_range (n : string) (ws : list WeaponConfig) :
  forall i, index_of_name n ws i = -1
            \/ i <= index_of_name n ws i < i + Z.of_nat (List.length ws).
Proof.
  induction ws as [|w ws IH]; intros i; cbn [index_of_name List.length]; [left; reflexivity|].
  destruct (String.eqb (name w) n); [right; lia|].
  destruct (IH (i + 1)) as [H|H]; [left; exact H|right; lia].
Qed.

Lemma index_of_name_hit (n : string) (ws : list WeaponConfig) :
  forall i, 0 <= i -> index_of_name n ws i <> -1 ->
            exists w, nth_error ws (Z.to_nat (index_of_name n ws i - i)) = Some w
                      /\ name w = n.
Proof.
  induction ws as [|w ws IH]; intros i Hi H; cbn [index_of_name] in *; [contradiction|].
  destruct (String.eqb (name w) n) eqn:E.
  - exists w. rewrite Z.sub_diag. split; [reflexivity|apply String.eqb_eq, E].
  - destruct (IH (i + 1) ltac:(lia) H) as (w' & Hn & Hw).
    destruct (index_of_name_range n ws (i + 1)) as [Hr|Hr]; [contradiction|].
    exists w'. split; [|exact Hw].
    replace (Z.to_nat (index_of_name n ws (i + 1) - i))
      with (S (Z.to_nat (index_of_name n ws (i + 1) - (i + 1)))) by lia.
    exact Hn.
Qed.

Lemma index_of_name_in (n : string) (ws : list WeaponConfig) :
  forall i, 0 <= i -> In n (map name ws) -> i <= index_of_name n ws i.
Proof.
  induction ws as [|w ws IH]; intros i Hi Hin; [destruct Hin|].
  cbn [index_of_name]. destruct (String.eqb (name w) n) eqn:E; [lia|].
  destruct Hin as [Hin|Hin].
  - apply String.eqb_neq in E. contradiction.
  - specialize (IH (i + 1) ltac:(lia) Hin). lia.
Qed.

Lemma existsb_name_in (n : string) (ws : list WeaponConfig) :
  existsb (String.eqb n) (map name ws) = true <-> In n (map name ws).
Proof.
  rewrite existsb_exists. split.
  - intros (x & Hin & Hx). apply String.eqb_eq in Hx. subst x. exact Hin.
  - intros Hin. exists n. split; [exact Hin|apply String.eqb_refl].
Qed.

Lemma clamp_index_range (i : Z) (ws : list WeaponConfig) :
  ws <> [] -> 0 <= clamp_index i ws < Z.of_nat (List.length ws).
Proof.
  intros H. unfold clamp_index. destruct ws; [contradiction|]. cbn [List.length]. lia.
Qed.

Lemma clamp_index_nth (i : Z) (ws : list WeaponConfig) :
  ws <> [] -> exists w, nth_error ws (Z.to_nat (clamp_index i ws)) = Some w.
Proof.
  intros H. pose proof (clamp_index_range i ws H) as Hr.
  destruct (nth_error ws (Z.to_nat (clamp_index i ws))) as [w|] eqn:E; [exists w; reflexivity|].
  apply nth_error_None in E. lia.
Qed.

(** The fields of the application after [switch_weapon] with weapons
    loaded. *)
Lemma switch_weapon_fields (i : Z) (a : App) (w : WeaponConfig) :
  weapons a <> [] ->
  nth_error (weapons a) (Z.to_nat (clamp_index i (weapons a))) = Some w ->
  state (switch_weapon i a) = with_current_weapon (Some w) (state a)
  /\ weapons (switch_weapon i a) = weapons a
  /\ engine (switch_weapon i a) = engine a
  /\ hotkeys (switch_weapon i a) = hotkeys a.
Proof.
  intros Hne Hn. unfold switch_weapon.
  destruct (weapons a) as [|w0 ws] eqn:E; [contradiction|].
  rewrite Hn. repeat split; cbn; rewrite ?E; reflexivity.
Qed.

Lemma current_weapon_index_some (a : App) (w : WeaponConfig) :
  weapons a <> [] -> current_weapon (state a) = Some w ->
  current_weapon_index a = index_of_name (name w) (weapons a) 0.
Proof.
  intros Hne Hw. unfold current_weapon_index. rewrite Hw.
  destruct (weapons a); [contradiction|reflexivity].
Qed.

Lemma current_weapon_index_range (a : App) :
  current_weapon_index a = -1
  \/ 0 <= current_weapon_index a < Z.of_nat (List.length (weapons a)).
Proof.
  unfold current_weapon_index.
  destruct (current_weapon (state a)) as [w|]; [|left; reflexivity].
  destruct (weapons a) as [|w0 ws] eqn:E; [left; reflexivity|].
  destruct (index_of_name_range (name w) (w0 :: ws) 0) as [H|H]; [left; exact H|right; lia].
Qed.

Lemma switch_weapon_index (i : Z) (a : App) :
  weapons a <> [] -> NoDup (map name (weapons a)) ->
  current_weapon_index (switch_weapon i a) = clamp_index i (weapons a).
Proof.
  intros Hne Hnd. destruct (clamp_index_nth i (weapons a) Hne) as [w Hw].
  destruct (switch_weapon_fields i a w Hne Hw) as (Hs & Hws & _).
  rewrite (current_weapon_index_some (switch_weapon i a) w).
  - rewrite Hws, (index_of_name_found (weapons a) _ w 0 Hnd Hw).
    pose proof (clamp_index_range i (weapons a) Hne). lia.
  - rewrite Hws. exact Hne.
  - rewrite Hs. reflexivity.
Qed.

End WeaponFacts.


(** X23. [step_weapon] stops at the ends of the list instead of wrapping
    around: from place [idx] a step of [delta] leads to [idx + delta]
    brought into the list, so "next" on the last weapon and "previous" on
    the first stay there; and when the current weapon is not in the list,
    nothing happens at all. *)
Theorem step_weapon_stops_at_the_ends (delta : Z) (a : App.App)
        (Hnd : NoDup (map name (App.weapons a))) :
  let idx := App.current_weapon_index a in
  let n := Z.of_nat (List.length (App.weapons a)) in
  (idx = -1 -> App.step_weapon delta a = a)
  /\ (idx <> -1 ->
      0 <= idx < n
      /\ App.current_weapon_index (App.step_weapon delta a)
         = Z.max 0 (Z.min (idx + delta) (n - 1))
      /\ (idx = n - 1 -> 0 <= delta ->
          App.current_weapon_index (App.step_weapon delta a) = idx)
      /\ (idx = 0 -> delta <= 0 ->
          App.current_weapon_index (App.step_weapon delta a) = idx)).
Proof.
  intros idx n. unfold App.step_weapon. fold idx. split.
  - intros H. rewrite H. reflexivity.
  - intros H. destruct (Z.eqb_spec idx (-1)) as [E|_]; [contradiction|].
    destruct (current_weapon_index_range a) as [Hr|Hr]; [contradiction|].
    fold idx n in Hr.
    assert (Hne : App.weapons a <> []).
    { intros E. unfold n in Hr. rewrite E in Hr. cbn in Hr. lia. }
    rewrite (switch_weapon_index _ a Hne Hnd). unfold App.clamp_index. fold n.
    split; [exact Hr|]. split; [reflexivity|]. split; intros; lia.
Qed.



Lemma step_weapon_stops_at_the_ends_witness :
  App.current_weapon_index
    (App.step_weapon 1 (App.switch_weapon 1 App.example_app)) = 1.
Proof.
  assert (Hnd : NoDup (map name (App.weapons (App.switch_weapon 1 App.example_app)))).
  { vm_compute. repeat constructor; cbn; intuition discriminate. }
  pose proof (step_weapon_stops_at_the_ends 1 (App.switch_weapon 1 App.example_app) Hnd)
    as H.
  cbv zeta in H. destruct H as (_ & H).
  assert (Hin : App.current_weapon_index (App.switch_weapon 1 App.example_app) <> -1)
    by (vm_compute; discriminate).
  assert (Hend : App.current_weapon_index (App.switch_weapon 1 App.example_app)
                 = Z.of_nat (List.length
                               (App.weapons (App.switch_weapon 1 App.example_app))) - 1)
    by (vm_compute; reflexivity).
  destruct (H Hin) as (_ & _ & Hlast & _).
  rewrite (Hlast Hend ltac:(lia)). vm_compute. reflexivity.
Defined.

(** X24. [refresh_plugins] leaves a current weapon exactly when weapons were
    loaded, and one whose name is in the new list.  A current weapon whose
    name is still listed stays as it is: the object selected before, not
    the one just loaded under that name.  Otherwise the first loaded
    weapon is taken. *)
Theorem refresh_plugins_keeps_selection (loaded : list WeaponConfig) (a : App.App) :
  let a' := App.refresh_plugins loaded a in
  App.weapons a' = loaded
  /\ (App.current_weapon (App.state a') = None <-> loaded = [])
  /\ (forall w, App.current_weapon (App.state a') = Some w ->
                 In (name w) (map name loaded))
  /\ (forall cw, App.current_weapon (App.state a) = Some cw ->
                  In (name cw) (map name loaded) ->
                  App.current_weapon (App.state a') = Some cw)
  /\ ((forall cw, App.current_weapon (App.state a) = Some cw ->
                   ~ In (name cw) (map name loaded)) ->
       App.current_weapon (App.state a') = hd_error loaded)
  /\ (loaded <> [] ->
       0 <= App.current_weapon_index a' < Z.of_nat (List.length loaded)).
Proof.
  intros a'.
  assert (Hw : App.weapons a' = loaded).
  { unfold a', App.refresh_plugins. destruct loaded as [|w0 ws]; [reflexivity|].
    destruct (App.current_weapon (App.state (App.with_weapons (w0 :: ws) a)));
      [destruct (existsb _ _)|]; reflexivity. }
  assert (Hs : App.current_weapon (App.state a')
               = match loaded with
                 | [] => None
                 | w0 :: _ =>
                     match App.current_weapon (App.state a) with
                     | Some cw =>
                         if existsb (String.eqb (name cw)) (map name loaded)
                         then Some cw else Some w0
                     | None => Some w0
                     end
                 end).
  { unfold a', App.refresh_plugins. destruct loaded as [|w0 ws]; [reflexivity|].
    cbn [App.state App.with_weapons].
    destruct (App.current_weapon (App.state a)) as [cw|] eqn:E;
      [destruct (existsb _ _) eqn:Ex|]; cbn; rewrite ?E; reflexivity. }
  assert (Hin : forall w, App.current_weapon (App.state a') = Some w ->
                          In (name w) (map name loaded)).
  { intros w H. rewrite Hs in H. destruct loaded as [|w0 ws]; [discriminate|].
    destruct (App.current_weapon (App.state a)) as [cw|].
    - destruct (existsb _ _) eqn:Ex; injection H as <-.
      + apply existsb_name_in, Ex.
      + left. reflexivity.
    - injection H as <-. left. reflexivity. }
  split; [exact Hw|]. split; [|split; [exact Hin|split; [|split]]].
  - rewrite Hs. destruct loaded as [|w0 ws]; [split; reflexivity|].
    split; [|discriminate].
    destruct (App.current_weapon (App.state a)); [destruct (existsb _ _)|]; discriminate.
  - intros cw Hc Hl. rewrite Hs, Hc. destruct loaded as [|w0 ws]; [destruct Hl|].
    apply existsb_name_in in Hl. rewrite Hl. reflexivity.
  - intros Hno. rewrite Hs. destruct loaded as [|w0 ws]; [reflexivity|].
    destruct (App.current_weapon (App.state a)) as [cw|] eqn:E; [|reflexivity].
    destruct (existsb _ _) eqn:Ex; [|reflexivity].
    apply existsb_name_in in Ex. exfalso. exact (Hno cw eq_refl Ex).
  - intros Hne.
    destruct (App.current_weapon (App.state a')) as [w|] eqn:E.
    + rewrite (current_weapon_index_some a' w) by (rewrite ?Hw; assumption).
      rewrite Hw. pose proof (index_of_name_in (name w) loaded 0 ltac:(lia) (Hin w eq_refl)).
      destruct (index_of_name_range (name w) loaded 0); lia.
    + exfalso. rewrite Hs in E. destruct loaded as [|w0 ws]; [contradiction|].
      destruct (App.current_weapon (App.state a)); [destruct (existsb _ _)|]; discriminate.
Qed.

(** ** The application as a whole *)



Section AppFacts.
Import App.

Variable b : Backend.




















End AppFacts.

Section StartFacts.
Import App.

Variable b : Backend.
Variable int_of_str : string -> option Z.

















End StartFacts.

Section PersistFacts.
Import App.

Variable b : Backend.




End PersistFacts.

(** ** What holds in every state the application reaches *)








(** ** Switching features off, and shutting down *)


